(** * SoftWireSTM32: a bit-banged I2C master

    Shallow embedding of [SoftWire.cpp] (the bit engine and [process]) and of
    [WireBase.cpp] (the transaction staging API), followed by the properties
    of the transfer processor and of the message buffers.

    The two open-drain lines are modelled from the master's side: the output
    latches written by [digitalWriteFast], and what the slave lets the master
    see when it samples a pin.  A sample of a line is the wired AND of the
    master's latch and the slave's contribution. *)

From stdpp Require Import base list.
From Stdlib Require Import ZArith Lia Bool.
Import ListNotations.
Local Open Scope Z_scope.

(** ** Machine integers *)

Definition uint8 (x : Z) : Z := x mod 2 ^ 8.
Definition uint16 (x : Z) : Z := x mod 2 ^ 16.

Definition HIGH : bool := true.
Definition LOW : bool := false.

(** [#define I2C_WRITE 0] and [#define I2C_READ 1] of SoftWire.cpp. *)
Definition I2C_WRITE : Z := 0.
Definition I2C_READ : Z := 1.

(** [SOFT_STANDARD] and [SOFT_FAST] of SoftWire.h. *)
Definition SOFT_STANDARD : Z := 3.
Definition SOFT_FAST : Z := 1.

(** ** Outcomes and the state monad

    A call either returns a value and a new state, or never returns because
    the busy-wait of [set_scl] spins for ever ([Hang]), or dereferences the
    message pointer outside the array it points into ([Fault], undefined
    behaviour in C++). *)

Inductive outcome (St A : Type) : Type :=
| Ret (a : A) (s : St)
| Hang
| Fault.
Arguments Ret {St A} a s.
Arguments Hang {St A}.
Arguments Fault {St A}.

Definition M (St A : Type) : Type := St -> outcome St A.

Definition ret {St A} (a : A) : M St A := fun s => Ret a s.

Definition bind {St A B} (m : M St A) (k : A -> M St B) : M St B :=
  fun s => match m s with
           | Ret a s' => k a s'
           | Hang => Hang
           | Fault => Fault
           end.

Definition gets {St A} (f : St -> A) : M St A := fun s => Ret (f s) s.
Definition modify {St} (f : St -> St) : M St unit := fun s => Ret tt (f s).

Notation "x <- m ;; k" := (bind m (fun x => k))
  (at level 100, m at next level, right associativity).
Notation "m ;; k" := (bind m (fun _ => k))
  (at level 100, right associativity).

(** ** The two lines *)

Inductive pin : Type := SCL | SDA.

Inductive PinMode : Type := INPUT | OUTPUT_OPEN_DRAIN.

(** What the master does to the bus: every [I2C_Delay] and every
    [digitalWriteFast], in program order. *)
Inductive line_event : Type :=
| Delay (loops : Z)
| Drive (p : pin) (level : bool).

(** Ghost log: one entry each time a bus primitive of the bit engine
    returns, with the byte it shifted or the acknowledge bit it sampled. *)
Inductive bus_op : Type :=
| OpStart
| OpStop
| OpRepeatedStart
| OpGetAck (ack : bool)
| OpSendAck
| OpSendNack
| OpShiftIn (data : Z)
| OpShiftOut (val : Z).

(** The private members of [SoftWire] together with the far side of the bus.

    - [scl_line]: the slave's side of the clock line, one entry per sample the
      master takes of it; beyond the end of the list the slave holds the
      clock low for ever.
    - [sda_line n]: the slave's side of the data line at the [n]-th sample the
      master takes of it ([false] = pulled low); [sda_samples] counts the
      samples taken so far.
    - [wave], [ops]: the logs, oldest entry first. *)
Record Bus : Type := mkBus {
  i2c_delay : Z;
  scl_pin : Z;
  sda_pin : Z;
  scl_mode : PinMode;
  sda_mode : PinMode;
  scl_out : bool;
  sda_out : bool;
  scl_line : list bool;
  sda_line : nat -> bool;
  sda_samples : nat;
  wave : list line_event;
  ops : list bus_op
}.

Definition with_i2c_delay (v : Z) (b : Bus) : Bus :=
  mkBus v (scl_pin b) (sda_pin b) (scl_mode b) (sda_mode b) (scl_out b)
        (sda_out b) (scl_line b) (sda_line b) (sda_samples b) (wave b) (ops b).
Definition with_scl_mode (v : PinMode) (b : Bus) : Bus :=
  mkBus (i2c_delay b) (scl_pin b) (sda_pin b) v (sda_mode b) (scl_out b)
        (sda_out b) (scl_line b) (sda_line b) (sda_samples b) (wave b) (ops b).
Definition with_sda_mode (v : PinMode) (b : Bus) : Bus :=
  mkBus (i2c_delay b) (scl_pin b) (sda_pin b) (scl_mode b) v (scl_out b)
        (sda_out b) (scl_line b) (sda_line b) (sda_samples b) (wave b) (ops b).
Definition with_scl_out (v : bool) (b : Bus) : Bus :=
  mkBus (i2c_delay b) (scl_pin b) (sda_pin b) (scl_mode b) (sda_mode b) v
        (sda_out b) (scl_line b) (sda_line b) (sda_samples b) (wave b) (ops b).
Definition with_sda_out (v : bool) (b : Bus) : Bus :=
  mkBus (i2c_delay b) (scl_pin b) (sda_pin b) (scl_mode b) (sda_mode b)
        (scl_out b) v (scl_line b) (sda_line b) (sda_samples b) (wave b) (ops b).
Definition with_scl_line (v : list bool) (b : Bus) : Bus :=
  mkBus (i2c_delay b) (scl_pin b) (sda_pin b) (scl_mode b) (sda_mode b)
        (scl_out b) (sda_out b) v (sda_line b) (sda_samples b) (wave b) (ops b).
Definition with_sda_samples (v : nat) (b : Bus) : Bus :=
  mkBus (i2c_delay b) (scl_pin b) (sda_pin b) (scl_mode b) (sda_mode b)
        (scl_out b) (sda_out b) (scl_line b) (sda_line b) v (wave b) (ops b).
Definition with_wave (v : list line_event) (b : Bus) : Bus :=
  mkBus (i2c_delay b) (scl_pin b) (sda_pin b) (scl_mode b) (sda_mode b)
        (scl_out b) (sda_out b) (scl_line b) (sda_line b) (sda_samples b) v
        (ops b).
Definition with_ops (v : list bus_op) (b : Bus) : Bus :=
  mkBus (i2c_delay b) (scl_pin b) (sda_pin b) (scl_mode b) (sda_mode b)
        (scl_out b) (sda_out b) (scl_line b) (sda_line b) (sda_samples b)
        (wave b) v.

(** ** External collaborators: delay and pin access *)

(** [I2C_Delay(loops)]: a busy loop of [loops] no-ops; only its occurrence is
    recorded. *)
Definition I2C_Delay (loops : Z) : M Bus unit :=
  modify (fun b => with_wave (wave b ++ [Delay loops]) b).

(** [digitalWriteFast(pin, state)]: sets the output latch of the pin. *)
Definition digitalWriteFast (p : pin) (state : bool) : M Bus unit :=
  modify (fun b =>
    with_wave (wave b ++ [Drive p state])
      (match p with
       | SCL => with_scl_out state b
       | SDA => with_sda_out state b
       end)).

(** [digitalReadFast(sda_pin)]: one sample of the data line. *)
Definition digitalReadFast_sda : M Bus bool :=
  fun b => Ret (sda_out b && sda_line b (sda_samples b))
               (with_sda_samples (S (sda_samples b)) b).

(** [while (digitalReadFast(scl_pin) == 0) ;] -- each turn of the loop takes
    one sample of the clock line.  When the samples run out the slave holds
    the clock low for ever and the loop never exits. *)
Fixpoint clock_stretch (tape : list bool) (b : Bus) : outcome Bus unit :=
  match tape with
  | [] => Hang
  | s :: tape' =>
      if scl_out b && s then Ret tt (with_scl_line tape' b)
      else clock_stretch tape' b
  end.

(** ** SoftWire.cpp: the bit engine *)

Definition set_scl (state : bool) : M Bus unit :=
  d <- gets i2c_delay ;;
  I2C_Delay d ;;
  digitalWriteFast SCL state ;;
  if state then (fun b => clock_stretch (scl_line b) b) else ret tt.

Definition set_sda (state : bool) : M Bus unit :=
  d <- gets i2c_delay ;;
  I2C_Delay d ;;
  digitalWriteFast SDA state.

Definition returned (o : bus_op) : M Bus unit :=
  modify (fun b => with_ops (ops b ++ [o]) b).

Definition i2c_start : M Bus unit :=
  set_sda LOW ;;
  set_scl LOW ;;
  returned OpStart.

Definition i2c_stop : M Bus unit :=
  set_sda LOW ;;
  set_scl HIGH ;;
  set_sda HIGH ;;
  returned OpStop.

Definition i2c_repeated_start : M Bus unit :=
  set_sda HIGH ;;
  set_scl HIGH ;;
  set_sda LOW ;;
  returned OpRepeatedStart.

Definition i2c_get_ack : M Bus bool :=
  set_scl LOW ;;
  set_sda HIGH ;;
  set_scl HIGH ;;
  lvl <- digitalReadFast_sda ;;
  let r := negb lvl in
  set_scl LOW ;;
  returned (OpGetAck r) ;;
  ret r.

Definition i2c_send_ack : M Bus unit :=
  set_sda LOW ;;
  set_scl HIGH ;;
  set_scl LOW ;;
  returned OpSendAck.

Definition i2c_send_nack : M Bus unit :=
  set_sda HIGH ;;
  set_scl HIGH ;;
  set_scl LOW ;;
  returned OpSendNack.

(** The body of [for (i = 0; i < 8; i++)] in [i2c_shift_in], [n] turns from
    index [i] on. *)
Fixpoint shift_in_loop (n : nat) (i : Z) (data : Z) : M Bus Z :=
  match n with
  | O => ret data
  | S n' =>
      set_scl HIGH ;;
      lvl <- digitalReadFast_sda ;;
      let data := uint8 (Z.lor data (if lvl then Z.shiftl 1 (7 - i) else 0)) in
      set_scl LOW ;;
      shift_in_loop n' (i + 1) data
  end.

Definition i2c_shift_in : M Bus Z :=
  set_sda HIGH ;;
  data <- shift_in_loop 8 0 0 ;;
  returned (OpShiftIn data) ;;
  ret data.

(** The body of [for (i = 0; i < 8; i++)] in [i2c_shift_out]. *)
Fixpoint shift_out_loop (n : nat) (i : Z) (val : Z) : M Bus unit :=
  match n with
  | O => ret tt
  | S n' =>
      set_sda (negb (Z.land val (Z.shiftl 1 (7 - i)) =? 0)) ;;
      set_scl HIGH ;;
      set_scl LOW ;;
      shift_out_loop n' (i + 1) val
  end.

Definition i2c_shift_out (val : Z) : M Bus unit :=
  shift_out_loop 8 0 val ;;
  returned (OpShiftOut val).

(** ** WireBase: the transaction descriptor and the staging buffers *)

(** The two arrays a message can point into. *)
Inductive buffer : Type := TX | RX.

(** [&tx_buf[k]] is [mkPtr TX k], [&rx_buf[k]] is [mkPtr RX k]. *)
Record pointer : Type := mkPtr { target : buffer; offset : Z }.

(** Modelled from the spec: [struct i2c_msg] is declared in WireBase.h, which
    is not among the sources; the fields are those of the transaction
    descriptor of the data model (address, direction flags, requested length,
    transferred count, buffer reference), with the names WireBase.cpp and
    SoftWire.cpp use.  The counters are taken as 16-bit unsigned. *)
Module i2c_msg.
Record t : Type := mk {
  addr : Z;
  flags : Z;
  length : Z;
  xferred : Z;
  data : pointer
}.
Definition with_addr (v : Z) (m : t) : t :=
  mk v (flags m) (length m) (xferred m) (data m).
Definition with_flags (v : Z) (m : t) : t :=
  mk (addr m) v (length m) (xferred m) (data m).
Definition with_length (v : Z) (m : t) : t :=
  mk (addr m) (flags m) v (xferred m) (data m).
Definition with_xferred (v : Z) (m : t) : t :=
  mk (addr m) (flags m) (length m) v (data m).
Definition with_data (v : pointer) (m : t) : t :=
  mk (addr m) (flags m) (length m) (xferred m) v.
End i2c_msg.

(** Modelled from the spec: the status codes returned by [process] and
    [endTransmission] are macros of WireBase.h; they are the four values of
    the error taxonomy (Ok, LengthExceeded, NackOnAddress, NackOnData). *)
Inductive Status : Type :=
| I2C_OK
| I2C_DATA_TOO_LONG
| I2C_NACK_ADDR
| I2C_NACK_DATA.

(** Modelled from the spec: the members of [WireBase] (declared in
    WireBase.h) are the message buffer of the data model: [tx_buf], [tx_buf_idx],
    [tx_buf_overflow], [rx_buf], [rx_buf_idx], [rx_buf_len]; the three cursors
    are taken as 8-bit unsigned, the width [available] and [requestFrom]
    return.  [bus] holds the members [SoftWire] adds. *)
Record SoftWire : Type := mkWire {
  bus : Bus;
  itc_msg : i2c_msg.t;
  rx_buf : list Z;
  rx_buf_idx : Z;
  rx_buf_len : Z;
  tx_buf : list Z;
  tx_buf_idx : Z;
  tx_buf_overflow : bool
}.

Definition with_bus (v : Bus) (w : SoftWire) : SoftWire :=
  mkWire v (itc_msg w) (rx_buf w) (rx_buf_idx w) (rx_buf_len w) (tx_buf w)
         (tx_buf_idx w) (tx_buf_overflow w).
Definition with_itc_msg (v : i2c_msg.t) (w : SoftWire) : SoftWire :=
  mkWire (bus w) v (rx_buf w) (rx_buf_idx w) (rx_buf_len w) (tx_buf w)
         (tx_buf_idx w) (tx_buf_overflow w).
Definition with_rx_buf (v : list Z) (w : SoftWire) : SoftWire :=
  mkWire (bus w) (itc_msg w) v (rx_buf_idx w) (rx_buf_len w) (tx_buf w)
         (tx_buf_idx w) (tx_buf_overflow w).
Definition with_rx_buf_idx (v : Z) (w : SoftWire) : SoftWire :=
  mkWire (bus w) (itc_msg w) (rx_buf w) v (rx_buf_len w) (tx_buf w)
         (tx_buf_idx w) (tx_buf_overflow w).
Definition with_rx_buf_len (v : Z) (w : SoftWire) : SoftWire :=
  mkWire (bus w) (itc_msg w) (rx_buf w) (rx_buf_idx w) v (tx_buf w)
         (tx_buf_idx w) (tx_buf_overflow w).
Definition with_tx_buf (v : list Z) (w : SoftWire) : SoftWire :=
  mkWire (bus w) (itc_msg w) (rx_buf w) (rx_buf_idx w) (rx_buf_len w) v
         (tx_buf_idx w) (tx_buf_overflow w).
Definition with_tx_buf_idx (v : Z) (w : SoftWire) : SoftWire :=
  mkWire (bus w) (itc_msg w) (rx_buf w) (rx_buf_idx w) (rx_buf_len w)
         (tx_buf w) v (tx_buf_overflow w).
Definition with_tx_buf_overflow (v : bool) (w : SoftWire) : SoftWire :=
  mkWire (bus w) (itc_msg w) (rx_buf w) (rx_buf_idx w) (rx_buf_len w)
         (tx_buf w) (tx_buf_idx w) v.

(** Running a bit-engine primitive on the object's pins. *)
Definition on_bus {A} (m : M Bus A) : M SoftWire A :=
  fun w => match m (bus w) with
           | Ret a b => Ret a (with_bus b w)
           | Hang => Hang
           | Fault => Fault
           end.

Definition update_msg (f : i2c_msg.t -> i2c_msg.t) : M SoftWire unit :=
  modify (fun w => with_itc_msg (f (itc_msg w)) w).

(** *** Array access through a pointer *)

Definition array (t : buffer) (w : SoftWire) : list Z :=
  match t with
  | TX => tx_buf w
  | RX => rx_buf w
  end.

Definition with_array (t : buffer) (v : list Z) (w : SoftWire) : SoftWire :=
  match t with
  | TX => with_tx_buf v w
  | RX => with_rx_buf v w
  end.

(** [p[i]] as an rvalue. *)
Definition load (p : pointer) (i : Z) : M SoftWire Z :=
  fun w =>
    let k := offset p + i in
    if 0 <=? k then
      match array (target p) w !! Z.to_nat k with
      | Some v => Ret v w
      | None => Fault
      end
    else Fault.

(** [p[i] = v]. *)
Definition store (p : pointer) (i : Z) (v : Z) : M SoftWire unit :=
  fun w =>
    let k := offset p + i in
    if (0 <=? k) && (k <? Z.of_nat (List.length (array (target p) w))) then
      Ret tt (with_array (target p)
                (<[Z.to_nat k := v]> (array (target p) w)) w)
    else Fault.

Section Wire.

(** [I2C_TXRX_BUFFER_SIZE] and [I2C_MSG_READ] are macros of WireBase.h. *)
Variable I2C_TXRX_BUFFER_SIZE : Z.
Variable I2C_MSG_READ : Z.

(** ** SoftWire.cpp: the transfer processor *)

(** [uint8_t sla_addr = (itc_msg.addr << 1); if (flags == I2C_MSG_READ)
    sla_addr |= I2C_READ;] *)
Definition sla_addr (m : i2c_msg.t) : Z :=
  let a := uint8 (Z.shiftl (i2c_msg.addr m) 1) in
  if i2c_msg.flags m =? I2C_MSG_READ then uint8 (Z.lor a I2C_READ) else a.

(** Every turn of the two transfer loops raises the clock at least eight
    times and each rise takes a sample of the clock line, so a loop that is
    still running after [S (length scl_line)] turns has run out of samples:
    this bound is the recursion measure of both loops. *)
Definition clock_budget (w : SoftWire) : nat :=
  S (List.length (scl_line (bus w))).

(** [while (itc_msg.xferred < itc_msg.length) { ... }] *)
Fixpoint recv_loop (fuel : nat) : M SoftWire unit :=
  match fuel with
  | O => fun _ => Hang
  | S fuel' =>
      m <- gets itc_msg ;;
      if i2c_msg.xferred m <? i2c_msg.length m then
        v <- on_bus i2c_shift_in ;;
        store (i2c_msg.data m) (i2c_msg.xferred m) v ;;
        update_msg (i2c_msg.with_xferred (uint16 (i2c_msg.xferred m + 1))) ;;
        m' <- gets itc_msg ;;
        (if i2c_msg.xferred m' <? i2c_msg.length m'
         then on_bus i2c_send_ack
         else on_bus i2c_send_nack) ;;
        recv_loop fuel'
      else ret tt
  end.

(** [for (uint8_t i = 0; i < itc_msg.length; i++) { ... }]; [Some st] when the
    body executes [return st]. *)
Fixpoint send_loop (fuel : nat) (i : Z) : M SoftWire (option Status) :=
  match fuel with
  | O => fun _ => Hang
  | S fuel' =>
      m <- gets itc_msg ;;
      if i <? i2c_msg.length m then
        v <- load (i2c_msg.data m) i ;;
        on_bus (i2c_shift_out v) ;;
        ack <- on_bus i2c_get_ack ;;
        if negb ack then
          on_bus i2c_stop ;;
          ret (Some I2C_NACK_DATA)
        else
          update_msg (fun m => i2c_msg.with_xferred
                                 (uint16 (i2c_msg.xferred m + 1)) m) ;;
          send_loop fuel' (uint8 (i + 1))
      else ret None
  end.

Definition process (stop : Z) : M SoftWire Status :=
  update_msg (i2c_msg.with_xferred 0) ;;
  m <- gets itc_msg ;;
  on_bus i2c_start ;;
  on_bus (i2c_shift_out (sla_addr m)) ;;
  ack <- on_bus i2c_get_ack ;;
  if negb ack then
    on_bus i2c_stop ;;
    ret I2C_NACK_ADDR
  else
    m <- gets itc_msg ;;
    early <- (if i2c_msg.flags m =? I2C_MSG_READ then
                fuel <- gets clock_budget ;;
                recv_loop fuel ;;
                ret None
              else
                fuel <- gets clock_budget ;;
                send_loop fuel 0) ;;
    match early with
    | Some st => ret st
    | None =>
        (if stop =? 1 then on_bus i2c_stop else on_bus i2c_repeated_start) ;;
        ret I2C_OK
    end.

(** [uint8_t SoftWire::process() { return process(true); }] *)
Definition process_legacy : M SoftWire Status := process 1.

Definition pinMode (p : pin) (mode : PinMode) : M Bus unit :=
  modify (match p with
          | SCL => with_scl_mode mode
          | SDA => with_sda_mode mode
          end).

Definition reset_cursors (w : SoftWire) : SoftWire :=
  with_rx_buf_len 0
    (with_rx_buf_idx 0 (with_tx_buf_overflow false (with_tx_buf_idx 0 w))).

(** [WireBase::begin] *)
Definition WireBase_begin (self_addr : Z) : M SoftWire unit :=
  modify reset_cursors.

(** [SoftWire::begin] *)
Definition begin (self_addr : Z) : M SoftWire unit :=
  modify reset_cursors ;;
  on_bus (pinMode SCL OUTPUT_OPEN_DRAIN) ;;
  on_bus (pinMode SDA OUTPUT_OPEN_DRAIN) ;;
  on_bus (set_scl HIGH) ;;
  on_bus (set_sda HIGH).

(** [SoftWire::end]; the name [end] is a keyword here. *)
Definition end_ : M SoftWire unit :=
  b <- gets bus ;;
  (if scl_pin b =? 0 then ret tt else on_bus (pinMode SCL INPUT)) ;;
  (if sda_pin b =? 0 then ret tt else on_bus (pinMode SDA INPUT)).

Definition setClock (frequencyHz : Z) : M SoftWire unit :=
  on_bus (modify (with_i2c_delay
                    (if frequencyHz =? 400000 then SOFT_FAST
                     else SOFT_STANDARD))).

(** ** WireBase.cpp *)

Definition beginTransmission (slave_address : Z) : M SoftWire unit :=
  update_msg (i2c_msg.with_addr slave_address) ;;
  idx <- gets tx_buf_idx ;;
  update_msg (i2c_msg.with_data (mkPtr TX idx)) ;;
  update_msg (i2c_msg.with_length 0) ;;
  update_msg (i2c_msg.with_flags 0).

Definition beginTransmission_int (slave_address : Z) : M SoftWire unit :=
  beginTransmission (uint8 slave_address).

Definition endTransmission : M SoftWire Status :=
  ovf <- gets tx_buf_overflow ;;
  if ovf then ret I2C_DATA_TOO_LONG
  else
    stat <- process_legacy ;;
    modify (with_tx_buf_idx 0) ;;
    modify (with_tx_buf_overflow false) ;;
    ret stat.

Definition requestFrom (address : Z) (num_bytes : Z) : M SoftWire Z :=
  let num_bytes :=
    if num_bytes >? I2C_TXRX_BUFFER_SIZE then I2C_TXRX_BUFFER_SIZE
    else num_bytes in
  update_msg (i2c_msg.with_addr address) ;;
  update_msg (i2c_msg.with_flags I2C_MSG_READ) ;;
  update_msg (i2c_msg.with_length (uint16 num_bytes)) ;;
  idx <- gets rx_buf_idx ;;
  update_msg (i2c_msg.with_data (mkPtr RX idx)) ;;
  process_legacy ;;
  w <- gets id ;;
  modify (with_rx_buf_len
            (uint8 (rx_buf_len w + i2c_msg.xferred (itc_msg w)))) ;;
  update_msg (i2c_msg.with_flags 0) ;;
  gets rx_buf_len.

Definition requestFrom_int (address : Z) (numBytes : Z) : M SoftWire Z :=
  requestFrom (uint8 address) numBytes.

(** [WireBase::write(uint8_t)] *)
Definition write (value : Z) : M SoftWire unit :=
  idx <- gets tx_buf_idx ;;
  if idx =? I2C_TXRX_BUFFER_SIZE then
    modify (with_tx_buf_overflow true)
  else
    store (mkPtr TX 0) idx value ;;
    modify (with_tx_buf_idx (uint8 (idx + 1))) ;;
    update_msg (fun m => i2c_msg.with_length
                           (uint16 (i2c_msg.length m + 1)) m).

(** [WireBase::write(uint8_t* buf, int len)]:
    [for (uint8_t i = 0; i < len; i++) write(buf[i]);] with [buf] the
    caller's array.  [write_loop n i] is [n] turns of the loop from index
    [i]; reading past the end of [buf] is a fault.

    The counter is 8 bits wide: for [len <= 255] the loop makes [len] turns
    (none if [len <= 0]); for [len > 255] the test [i < len] never fails.  In
    that case any fault shows within the first 256 turns (by then [i] has
    been every index of [buf] it will ever be, and [tx_buf_idx] has either
    stopped at the capacity or been every index of [tx_buf]), after which the
    loop spins for ever. *)
Fixpoint write_loop (n : nat) (i : Z) (buf : list Z) : M SoftWire unit :=
  match n with
  | O => ret tt
  | S n' =>
      match buf !! Z.to_nat i with
      | Some v => write v ;; write_loop n' (uint8 (i + 1)) buf
      | None => fun _ => Fault
      end
  end.

Definition write_buf (buf : list Z) (len : Z) : M SoftWire unit :=
  if len <=? 255 then write_loop (Z.to_nat len) 0 buf
  else write_loop 256 0 buf ;; (fun _ => Hang).

(** [WireBase::write(int value)] *)
Definition write_int (value : Z) : M SoftWire unit :=
  write (uint8 value).

(** [WireBase::write(char* buf)]:
    a loop that calls [write] on each byte up to the terminating zero; [buf] is the caller's array,
    and running off its end before a zero byte is a fault. *)
Fixpoint write_str (buf : list Z) : M SoftWire unit :=
  match buf with
  | [] => fun _ => Fault
  | c :: rest => if c =? 0 then ret tt else write c ;; write_str rest
  end.

Definition available (w : SoftWire) : Z :=
  uint8 (rx_buf_len w - rx_buf_idx w).

Definition read : M SoftWire Z :=
  w <- gets id ;;
  if rx_buf_idx w =? rx_buf_len w then
    modify (with_rx_buf_idx 0) ;;
    modify (with_rx_buf_len 0) ;;
    ret 0
  else if rx_buf_idx w =? rx_buf_len w - 1 then
    temp <- load (mkPtr RX 0) (rx_buf_idx w) ;;
    modify (with_rx_buf_idx 0) ;;
    modify (with_rx_buf_len 0) ;;
    ret temp
  else
    v <- load (mkPtr RX 0) (rx_buf_idx w) ;;
    modify (with_rx_buf_idx (uint8 (rx_buf_idx w + 1))) ;;
    ret v.

End Wire.

(** ** Vocabulary of the specification *)

(** The clock samples left once the slave has released the clock: everything
    after the first high sample, if there is one. *)
Fixpoint skip_low (tape : list bool) : option (list bool) :=
  match tape with
  | [] => None
  | s :: tape' => if s then Some tape' else skip_low tape'
  end.

(** [release n tape]: the slave lets the clock rise [n] times in a row;
    the result is what is left of the samples. *)
Fixpoint release (n : nat) (tape : list bool) : option (list bool) :=
  match n with
  | O => Some tape
  | S n' =>
      match skip_low tape with
      | Some tape' => release n' tape'
      | None => None
      end
  end.

(** The level a latch holds after a sequence of line events. *)
Definition latch (p : pin) (init : bool) (l : list line_event) : bool :=
  fold_left (fun lvl e =>
               match e, p with
               | Drive SCL v, SCL => v
               | Drive SDA v, SDA => v
               | _, _ => lvl
               end) l init.

(** The bus after the master has emitted the line events [l] and completed
    the primitives [o], with [t] the clock samples left and [s] the number of
    data samples taken. *)
Definition after (b : Bus) (t : list bool) (s : nat)
    (l : list line_event) (o : list bus_op) : Bus :=
  mkBus (i2c_delay b) (scl_pin b) (sda_pin b) (scl_mode b) (sda_mode b)
        (latch SCL (scl_out b) l) (latch SDA (sda_out b) l)
        t (sda_line b) s (wave b ++ l) (ops b ++ o).

(** The line events of each primitive, with pacing delay [d]. *)
Definition sda_to (d : Z) (v : bool) : list line_event := [Delay d; Drive SDA v].
Definition scl_to (d : Z) (v : bool) : list line_event := [Delay d; Drive SCL v].

Definition start_wave (d : Z) : list line_event :=
  sda_to d LOW ++ scl_to d LOW.
Definition stop_wave (d : Z) : list line_event :=
  sda_to d LOW ++ scl_to d HIGH ++ sda_to d HIGH.
Definition repeated_start_wave (d : Z) : list line_event :=
  sda_to d HIGH ++ scl_to d HIGH ++ sda_to d LOW.
Definition get_ack_wave (d : Z) : list line_event :=
  scl_to d LOW ++ sda_to d HIGH ++ scl_to d HIGH ++ scl_to d LOW.
Definition send_ack_wave (d : Z) : list line_event :=
  sda_to d LOW ++ scl_to d HIGH ++ scl_to d LOW.
Definition send_nack_wave (d : Z) : list line_event :=
  sda_to d HIGH ++ scl_to d HIGH ++ scl_to d LOW.

Fixpoint clock_pulses (n : nat) (d : Z) : list line_event :=
  match n with
  | O => []
  | S n' => scl_to d HIGH ++ scl_to d LOW ++ clock_pulses n' d
  end.
Definition shift_in_wave (d : Z) : list line_event :=
  sda_to d HIGH ++ clock_pulses 8 d.

Fixpoint data_bits (n : nat) (i : Z) (d : Z) (val : Z) : list line_event :=
  match n with
  | O => []
  | S n' =>
      sda_to d (negb (Z.land val (Z.shiftl 1 (7 - i)) =? 0))
        ++ scl_to d HIGH ++ scl_to d LOW ++ data_bits n' (i + 1) d val
  end.
Definition shift_out_wave (d : Z) (val : Z) : list line_event :=
  data_bits 8 0 d val.

(** The value [i2c_shift_in] assembles from [n] samples of the data line
    taken from sample [k] on, most significant bit first. *)
Fixpoint sample_bits (line : nat -> bool) (k : nat) (n : nat) (i : Z)
    (data : Z) : Z :=
  match n with
  | O => data
  | S n' =>
      sample_bits line (S k) n' (i + 1)
        (uint8 (Z.lor data (if line k then Z.shiftl 1 (7 - i) else 0)))
  end.
Definition sampled_byte (line : nat -> bool) (k : nat) : Z :=
  sample_bits line k 8 0 0.

(** The bytes a read of [count] bytes receives when its first data sample is
    sample [k]. *)
Fixpoint received (line : nat -> bool) (k : nat) (count : nat) : list Z :=
  match count with
  | O => []
  | S count' => sampled_byte line k :: received line (k + 8) count'
  end.

(** The primitives of a read of the bytes [bytes]: an ACK after every byte
    but the last, a NACK after the last. *)
Fixpoint read_ops (bytes : list Z) : list bus_op :=
  match bytes with
  | [] => []
  | v :: rest =>
      OpShiftIn v
        :: match rest with [] => OpSendNack | _ :: _ => OpSendAck end
        :: read_ops rest
  end.

Fixpoint read_wave (d : Z) (n : nat) : list line_event :=
  match n with
  | O => []
  | S n' =>
      shift_in_wave d
        ++ match n' with O => send_nack_wave d | S _ => send_ack_wave d end
        ++ read_wave d n'
  end.

(** The primitives of writing [bytes], every one acknowledged. *)
Fixpoint write_ops (bytes : list Z) : list bus_op :=
  match bytes with
  | [] => []
  | v :: rest => OpShiftOut v :: OpGetAck true :: write_ops rest
  end.

Fixpoint write_wave (d : Z) (bytes : list Z) : list line_event :=
  match bytes with
  | [] => []
  | v :: rest => shift_out_wave d v ++ get_ack_wave d ++ write_wave d rest
  end.

(** The object during a transfer that started in [w]: the pins, the
    transferred count and the array the message points into have moved on,
    nothing else has. *)
Definition transfer_state (w : SoftWire) (b : Bus) (x : Z) (arr : list Z)
    : SoftWire :=
  with_array (target (i2c_msg.data (itc_msg w))) arr
    (with_itc_msg (i2c_msg.with_xferred x (itc_msg w)) (with_bus b w)).

(** The part of the array [p] points into that a message of [n] bytes
    covers. *)
Definition in_bounds (p : pointer) (n : Z) (w : SoftWire) : Prop :=
  0 <= offset p /\ offset p + n <= Z.of_nat (List.length (array (target p) w)).

(** [p[i]] when it lies inside the array. *)
Definition deref (p : pointer) (i : Z) (w : SoftWire) : option Z :=
  array (target p) w !! Z.to_nat (offset p + i).

(** [bytes] are the contents of [arr] from index [k] on. *)
Definition sublist_at (k : nat) (bytes arr : list Z) : Prop :=
  forall j v, bytes !! j = Some v -> arr !! (k + j)%nat = Some v.

(** The bytes a message of [n] bytes at [p] holds. *)
Definition staged (p : pointer) (n : Z) (w : SoftWire) : list Z :=
  take (Z.to_nat n) (drop (Z.to_nat (offset p)) (array (target p) w)).

(** The slave pulls the data line low at the [n] samples from [k] on. *)
Definition acks (line : nat -> bool) (k n : nat) : Prop :=
  forall j, (j < n)%nat -> line (k + j)%nat = false.

(** How [process] leaves the bus when the transfer went through. *)
Definition final_op (stop : Z) : bus_op :=
  if stop =? 1 then OpStop else OpRepeatedStart.
Definition final_wave (d : Z) (stop : Z) : list line_event :=
  if stop =? 1 then stop_wave d else repeated_start_wave d.

(** The address phase of a transfer: start condition, address byte [a],
    acknowledge bit [ack]. *)
Definition address_ops (a : Z) (ack : bool) : list bus_op :=
  [OpStart; OpShiftOut a; OpGetAck ack].
Definition address_wave (d : Z) (a : Z) : list line_event :=
  start_wave d ++ shift_out_wave d a ++ get_ack_wave d.

(** What [process] has done when [i2c_get_ack] returns for the address byte:
    [xferred] is 0 and the bus has seen the address phase; [t] are the clock
    samples left. *)
Definition addressed (I2C_MSG_READ : Z) (w : SoftWire) (t : list bool)
    : SoftWire :=
  let b := bus w in
  let a := sla_addr I2C_MSG_READ (itc_msg w) in
  transfer_state w
    (after b t (S (sda_samples b)) (address_wave (i2c_delay b) a)
       (address_ops a (negb (sda_line b (sda_samples b)))))
    0 (array (target (i2c_msg.data (itc_msg w))) w).

(** The bus after a loop is the bus before it, some line events and
    primitives later; nothing but the transfer state has changed. *)
Definition moved_on (w : SoftWire) (b : Bus) (w' : SoftWire)
    (l : list line_event) (o : list bus_op) : Prop :=
  exists t s x arr, w' = transfer_state w (after b t s l o) x arr.


(** ** Vocabulary for the staging API *)

(** One call of [write] per byte of [bytes], in order. *)
Fixpoint writes (I2C_TXRX_BUFFER_SIZE : Z) (bytes : list Z)
    : M SoftWire unit :=
  match bytes with
  | [] => ret tt
  | v :: rest =>
      write I2C_TXRX_BUFFER_SIZE v ;; writes I2C_TXRX_BUFFER_SIZE rest
  end.

(** [n] calls of [read] in a row, collecting what they return. *)
Fixpoint reads (n : nat) : M SoftWire (list Z) :=
  match n with
  | O => ret []
  | S n' => v <- read ;; vs <- reads n' ;; ret (v :: vs)
  end.

(** The object with [bytes] staged behind the transmit index. *)
Definition with_staged (bytes : list Z) (w : SoftWire) : SoftWire :=
  let n := Z.of_nat (List.length bytes) in
  with_itc_msg
    (i2c_msg.with_length (i2c_msg.length (itc_msg w) + n) (itc_msg w))
    (with_tx_buf_idx (tx_buf_idx w + n)
       (with_tx_buf
          (list_inserts (Z.to_nat (tx_buf_idx w)) bytes (tx_buf w)) w)).

(** ** Vocabulary for the bit engine *)

(** The eight bits of a byte, most significant first. *)
Definition byte_bits (v : Z) : list bool :=
  map (Z.testbit v) [7; 6; 5; 4; 3; 2; 1; 0].

(** One data bit on the wire: the data line takes its level, then the
    clock goes high and low again. *)
Definition bit_wave (d : Z) (level : bool) : list line_event :=
  sda_to d level ++ scl_to d HIGH ++ scl_to d LOW.

(** A slave that puts [bits] on the data line from sample [k] on and leaves
    it high otherwise. *)
Definition presents (bits : list bool) (k : nat) : nat -> bool :=
  fun n => if (n <? k)%nat then true else nth (n - k) bits true.

(** The levels the master drives on the data line, in order. *)
Fixpoint sda_levels (l : list line_event) : list bool :=
  match l with
  | [] => []
  | Drive SDA v :: rest => v :: sda_levels rest
  | _ :: rest => sda_levels rest
  end.

(** The levels the data line has at the rising edges of the clock: what a
    receiver on the bus reads. *)
Fixpoint clocked_levels (sda : bool) (l : list line_event) : list bool :=
  match l with
  | [] => []
  | Drive SDA v :: rest => clocked_levels v rest
  | Drive SCL true :: rest => sda :: clocked_levels sda rest
  | _ :: rest => clocked_levels sda rest
  end.

(** Every line event of [l] is a [Drive] that comes right after a [Delay]
    of [d] loops. *)
Fixpoint paced (d : Z) (l : list line_event) : bool :=
  match l with
  | [] => true
  | Delay d' :: Drive _ _ :: rest => (d' =? d) && paced d rest
  | _ => false
  end.

(** The line events of a primitive, from its entry in the ghost log. *)
Definition render (d : Z) (o : bus_op) : list line_event :=
  match o with
  | OpStart => start_wave d
  | OpStop => stop_wave d
  | OpRepeatedStart => repeated_start_wave d
  | OpGetAck _ => get_ack_wave d
  | OpSendAck => send_ack_wave d
  | OpSendNack => send_nack_wave d
  | OpShiftIn _ => shift_in_wave d
  | OpShiftOut val => shift_out_wave d val
  end.

Definition rendering (d : Z) (o : list bus_op) : list line_event :=
  flat_map (render d) o.

(** The object after a stretch of a transfer in which the bus has completed
    the primitives [o], and emitted their line events and nothing else. *)
Definition traced (w : SoftWire) (b : Bus) (w' : SoftWire)
    (o : list bus_op) (x : Z) (arr : list Z) : Prop :=
  exists t s,
    w' = transfer_state w (after b t s (rendering (i2c_delay b) o) o) x arr.

(** The primitives of a whole run of [process] with address byte [a], by the
    status it returns. *)
Inductive run_ops (a : Z) (stop : Z) (is_read : bool)
    : Status -> list Z -> list bus_op -> Prop :=
| run_nack_addr :
    run_ops a stop is_read I2C_NACK_ADDR []
      (address_ops a false ++ [OpStop])
| run_read bytes :
    is_read = true ->
    run_ops a stop is_read I2C_OK bytes
      (address_ops a true ++ read_ops bytes ++ [final_op stop])
| run_write bytes :
    is_read = false ->
    run_ops a stop is_read I2C_OK bytes
      (address_ops a true ++ write_ops bytes ++ [final_op stop])
| run_nack_data bytes v :
    is_read = false ->
    run_ops a stop is_read I2C_NACK_DATA bytes
      (address_ops a true ++ write_ops bytes ++
       [OpShiftOut v; OpGetAck false; OpStop]).

(** The moves of the data line made while the clock is high, in order:
    [false] is a fall (a START condition), [true] a rise (a STOP
    condition).  [scl] and [sda] are the levels before [l]. *)
Fixpoint moves_while_high (scl sda : bool) (l : list line_event)
    : list bool :=
  match l with
  | [] => []
  | Delay _ :: rest => moves_while_high scl sda rest
  | Drive SCL v :: rest => moves_while_high v sda rest
  | Drive SDA v :: rest =>
      (if scl && negb (Bool.eqb v sda) then [v] else [])
        ++ moves_while_high scl v rest
  end.

(** The primitives that make up the data phase of a transfer. *)
Definition data_op (o : bus_op) : bool :=
  match o with
  | OpStart | OpStop | OpRepeatedStart => false
  | _ => true
  end.

(** ** A bench for concrete runs

    An object with 32-byte buffers and pacing [SOFT_STANDARD], wired to a
    slave given by its clock samples [scl] and its data line [sda]; the two
    macros of WireBase.h take the values [bench_size] and [bench_read]. *)

Definition bench_size : Z := 32.
Definition bench_read : Z := 1.

Definition bench_bus (scl : list bool) (sda : nat -> bool) : Bus :=
  mkBus SOFT_STANDARD 22 23 INPUT INPUT true true scl sda 0 [] [].

Definition bench (scl : list bool) (sda : nat -> bool) : SoftWire :=
  mkWire (bench_bus scl sda) (i2c_msg.mk 0 0 0 0 (mkPtr TX 0))
         (repeat 0 32) 0 0 (repeat 0 32) 0 false.

(** A slave that never stretches the clock, for [n] clock pulses. *)
Definition prompt (n : nat) : list bool := repeat true n.

(** A slave that pulls the data line low at every sample but sample [k]. *)
Definition nack_at (k : nat) : nat -> bool := fun n => Nat.eqb n k.

(** What the calls [m] return, when they return. *)
Definition result {A} (m : M SoftWire A) (w : SoftWire) : option A :=
  match m w with
  | Ret a _ => Some a
  | _ => None
  end.

(** The object after the calls [m], when they return. *)
Definition state_after {A} (m : M SoftWire A) (w : SoftWire) : SoftWire :=
  match m w with
  | Ret _ w' => w'
  | _ => w
  end.


(** Staging 33 bytes into the 32-byte transmit buffer, committing, and
    starting the next transaction; the result is the status of the commit
    and the transmit cursor and overflow flag after [beginTransmission]. *)
Definition overflow_then_begin : M SoftWire (Status * Z * bool) :=
  begin 0 ;;
  beginTransmission 0x50 ;;
  write_buf bench_size (repeat 0xAA 33) 33 ;;
  st <- endTransmission bench_read ;;
  beginTransmission 0x51 ;;
  w <- gets id ;;
  ret (st, tx_buf_idx w, tx_buf_overflow w).

(** The same, followed by [end]. *)
Definition overflow_then_end : M SoftWire (Z * bool) :=
  overflow_then_begin ;;
  end_ ;;
  w <- gets id ;;
  ret (tx_buf_idx w, tx_buf_overflow w).

(** Three bytes requested, one consumed: the read cursor is at 1. *)
Definition one_byte_consumed : M SoftWire Z :=
  begin 0 ;;
  requestFrom bench_size bench_read 0x50 3 ;;
  read.

(** The byte consumed, the read cursor, the available length and the size
    of the receive buffer at that point. *)
Definition one_byte_consumed_state : M SoftWire (Z * Z * Z * nat) :=
  v <- one_byte_consumed ;;
  w <- gets id ;;
  ret (v, rx_buf_idx w, rx_buf_len w, List.length (rx_buf w)).

(** ... and then a request for a full buffer. *)
Definition request_past_cursor : M SoftWire Z :=
  one_byte_consumed ;;
  requestFrom bench_size bench_read 0x50 32.

(** The same request, reporting the message length and what is left of the
    receive buffer behind the cursor. *)
Definition request_past_cursor_length : M SoftWire (Z * Z) :=
  request_past_cursor ;;
  w <- gets id ;;
  ret (i2c_msg.length (itc_msg w), bench_size - rx_buf_idx w).


(** Three bytes staged for the slave at 0x50, ready to be committed. *)
Definition three_staged (scl : list bool) (sda : nat -> bool) : SoftWire :=
  state_after
    (begin 0 ;;
     beginTransmission 0x50 ;;
     write bench_size 1 ;;
     write bench_size 2 ;;
     write bench_size 3)
    (bench (true :: scl) sda).

(** The message [requestFrom(0x50, 3)] hands to [process]. *)
Definition three_requested (scl : list bool) (sda : nat -> bool) : SoftWire :=
  with_itc_msg (i2c_msg.mk 0x50 bench_read 3 0 (mkPtr RX 0)) (bench scl sda).

(** A full transmit buffer. *)
Definition full_tx (scl : list bool) (sda : nat -> bool) : SoftWire :=
  with_tx_buf_idx bench_size (bench scl sda).


(** An object whose overflow flag is set. *)
Definition overflowed (scl : list bool) (sda : nat -> bool) : SoftWire :=
  with_tx_buf_overflow true (bench scl sda).

(** A slave that answers a read with the bits of [v], after acknowledging
    nothing: the data line as [i2c_shift_in] samples it from sample 0 on. *)
Definition sending (v : Z) (scl : list bool) : Bus :=
  bench_bus scl (presents (byte_bits v) 0).

(** * Properties *)

(** ** The monad *)

Lemma bind_Ret {St A B} (m : M St A) (k : A -> M St B) s a s' :
  m s = Ret a s' -> bind m k s = k a s'.
Proof. intros H. unfold bind. now rewrite H. Qed.

Lemma bind_Ret_inv {St A B} (m : M St A) (k : A -> M St B) s r s' :
  bind m k s = Ret r s' ->
  exists a s1, m s = Ret a s1 /\ k a s1 = Ret r s'.
Proof.
  unfold bind. destruct (m s) as [a s1| |]; try discriminate.
  intros H. now exists a, s1.
Qed.

Lemma bind_assoc_run {St A B C} (m : M St A) (k : A -> M St B)
    (h : B -> M St C) s :
  bind (bind m k) h s = bind m (fun a => bind (k a) h) s.
Proof. unfold bind. now destruct (m s). Qed.

(** ** Clock releases *)

Lemma release_add n k tape :
  release (n + k) tape =
  match release n tape with
  | Some tape' => release k tape'
  | None => None
  end.
Proof.
  revert tape. induction n as [|n IH]; intros tape; simpl; [reflexivity|].
  destruct (skip_low tape); [apply IH | reflexivity].
Qed.

Lemma skip_low_length tape tape' :
  skip_low tape = Some tape' -> (List.length tape' < List.length tape)%nat.
Proof.
  revert tape'. induction tape as [|s tape IH]; intros tape'; simpl.
  - discriminate.
  - destruct s.
    + intros [= <-]. lia.
    + intros H. apply IH in H. lia.
Qed.

Lemma release_length n tape tape' :
  release n tape = Some tape' ->
  (List.length tape' + n <= List.length tape)%nat.
Proof.
  revert tape. induction n as [|n IH]; intros tape; simpl.
  - intros [= <-]. lia.
  - destruct (skip_low tape) as [t1|] eqn:E; [|discriminate].
    intros H. apply IH in H. apply skip_low_length in E. lia.
Qed.

Lemma release_le n k tape :
  (k <= n)%nat -> release n tape <> None -> release k tape <> None.
Proof.
  intros Hle. replace n with (k + (n - k))%nat by lia.
  rewrite release_add. destruct (release k tape); congruence.
Qed.

(** ** The bit engine in closed form *)

Lemma latch_app p init l1 l2 :
  latch p init (l1 ++ l2) = latch p (latch p init l1) l2.
Proof. unfold latch. apply fold_left_app. Qed.

Lemma after_after b t1 s1 l1 o1 t2 s2 l2 o2 :
  after (after b t1 s1 l1 o1) t2 s2 l2 o2 = after b t2 s2 (l1 ++ l2) (o1 ++ o2).
Proof.
  unfold after; simpl. rewrite !latch_app, !app_assoc. reflexivity.
Qed.

Lemma after_id b : after b (scl_line b) (sda_samples b) [] [] = b.
Proof. destruct b; unfold after; simpl. now rewrite !app_nil_r. Qed.

Ltac pins_unfold :=
  unfold set_sda, set_scl, returned, bind, gets, ret, I2C_Delay,
    digitalWriteFast, modify, with_wave, with_scl_out, with_sda_out,
    with_scl_line, with_ops, after, sda_to, scl_to, HIGH, LOW; simpl.

Lemma set_sda_eq v b :
  set_sda v b =
  Ret tt (after b (scl_line b) (sda_samples b) (sda_to (i2c_delay b) v) []).
Proof.
  destruct b; pins_unfold. now rewrite app_nil_r, <- app_assoc.
Qed.

Lemma set_scl_low_eq b :
  set_scl LOW b =
  Ret tt (after b (scl_line b) (sda_samples b) (scl_to (i2c_delay b) LOW) []).
Proof.
  destruct b; pins_unfold. now rewrite app_nil_r, <- app_assoc.
Qed.

Lemma clock_stretch_eq tape b :
  scl_out b = true ->
  clock_stretch tape b =
  match skip_low tape with
  | Some t => Ret tt (with_scl_line t b)
  | None => Hang
  end.
Proof.
  intros H. induction tape as [|s tape IH]; simpl; [reflexivity|].
  rewrite H. destruct s; simpl; [reflexivity | apply IH].
Qed.

Lemma set_scl_high_eq b :
  set_scl HIGH b =
  match skip_low (scl_line b) with
  | Some t => Ret tt (after b t (sda_samples b) (scl_to (i2c_delay b) HIGH) [])
  | None => Hang
  end.
Proof.
  unfold set_scl, bind, gets, I2C_Delay, digitalWriteFast, modify, HIGH.
  rewrite clock_stretch_eq by reflexivity. simpl.
  destruct (skip_low (scl_line b)); [|reflexivity].
  destruct b; pins_unfold. now rewrite app_nil_r, <- app_assoc.
Qed.

Lemma returned_eq o b :
  returned o b = Ret tt (after b (scl_line b) (sda_samples b) [] [o]).
Proof. destruct b; pins_unfold. now rewrite app_nil_r. Qed.

Lemma digitalReadFast_sda_eq b :
  digitalReadFast_sda b =
  Ret (sda_out b && sda_line b (sda_samples b))
      (after b (scl_line b) (S (sda_samples b)) [] []).
Proof.
  destruct b; unfold digitalReadFast_sda, with_sda_samples. pins_unfold.
  now rewrite !app_nil_r.
Qed.

Section AfterProjections.
Variables (b : Bus) (t : list bool) (s : nat) (l : list line_event)
  (o : list bus_op).

Lemma i2c_delay_after : i2c_delay (after b t s l o) = i2c_delay b.
Proof. reflexivity. Qed.
Lemma scl_line_after : scl_line (after b t s l o) = t.
Proof. reflexivity. Qed.
Lemma sda_line_after : sda_line (after b t s l o) = sda_line b.
Proof. reflexivity. Qed.
Lemma sda_samples_after : sda_samples (after b t s l o) = s.
Proof. reflexivity. Qed.
Lemma scl_out_after : scl_out (after b t s l o) = latch SCL (scl_out b) l.
Proof. reflexivity. Qed.
Lemma sda_out_after : sda_out (after b t s l o) = latch SDA (sda_out b) l.
Proof. reflexivity. Qed.
Lemma wave_after : wave (after b t s l o) = wave b ++ l.
Proof. reflexivity. Qed.
Lemma ops_after : ops (after b t s l o) = ops b ++ o.
Proof. reflexivity. Qed.
End AfterProjections.

Create Rewrite HintDb bus.
#[local] Hint Rewrite i2c_delay_after scl_line_after sda_line_after
  sda_samples_after scl_out_after sda_out_after wave_after ops_after
  after_after : bus.

(** One step of symbolic execution of the bit engine. *)
Ltac bus_step :=
  first
    [ rewrite set_sda_eq
    | rewrite set_scl_low_eq
    | rewrite returned_eq
    | rewrite set_scl_high_eq
    | rewrite digitalReadFast_sda_eq
    | progress autorewrite with bus
    | progress cbn beta iota
    | match goal with
      | |- context [match skip_low ?t with _ => _ end] =>
          let E := fresh "E" in
          destruct (skip_low t) eqn:E; [|reflexivity]
      end ].

Ltac bus_run := unfold bind; repeat bus_step.

Lemma i2c_start_eq b :
  i2c_start b =
  Ret tt (after b (scl_line b) (sda_samples b) (start_wave (i2c_delay b))
            [OpStart]).
Proof. unfold i2c_start, LOW. bus_run. reflexivity. Qed.

Lemma i2c_stop_eq b :
  i2c_stop b =
  match release 1 (scl_line b) with
  | Some t =>
      Ret tt (after b t (sda_samples b) (stop_wave (i2c_delay b)) [OpStop])
  | None => Hang
  end.
Proof. unfold i2c_stop, HIGH, LOW, release. bus_run. reflexivity. Qed.

Lemma i2c_repeated_start_eq b :
  i2c_repeated_start b =
  match release 1 (scl_line b) with
  | Some t =>
      Ret tt (after b t (sda_samples b) (repeated_start_wave (i2c_delay b))
                [OpRepeatedStart])
  | None => Hang
  end.
Proof.
  unfold i2c_repeated_start, HIGH, LOW, release. bus_run. reflexivity.
Qed.

Lemma i2c_send_ack_eq b :
  i2c_send_ack b =
  match release 1 (scl_line b) with
  | Some t =>
      Ret tt (after b t (sda_samples b) (send_ack_wave (i2c_delay b))
                [OpSendAck])
  | None => Hang
  end.
Proof. unfold i2c_send_ack, HIGH, LOW, release. bus_run. reflexivity. Qed.

Lemma i2c_send_nack_eq b :
  i2c_send_nack b =
  match release 1 (scl_line b) with
  | Some t =>
      Ret tt (after b t (sda_samples b) (send_nack_wave (i2c_delay b))
                [OpSendNack])
  | None => Hang
  end.
Proof. unfold i2c_send_nack, HIGH, LOW, release. bus_run. reflexivity. Qed.

(** The acknowledge bit is the complement of the slave's side of the data
    line at the sample taken while the clock is high. *)
Lemma i2c_get_ack_eq b :
  i2c_get_ack b =
  match release 1 (scl_line b) with
  | Some t =>
      let r := negb (sda_line b (sda_samples b)) in
      Ret r (after b t (S (sda_samples b)) (get_ack_wave (i2c_delay b))
               [OpGetAck r])
  | None => Hang
  end.
Proof.
  unfold i2c_get_ack, HIGH, LOW, release. bus_run. reflexivity.
Qed.

Lemma latch_clock_pulses_sda n d init :
  latch SDA init (clock_pulses n d) = init.
Proof. induction n as [|n IH]; [reflexivity | exact IH]. Qed.

Lemma shift_in_loop_eq n : forall i data b,
  sda_out b = true ->
  shift_in_loop n i data b =
  match release n (scl_line b) with
  | Some t =>
      Ret (sample_bits (sda_line b) (sda_samples b) n i data)
          (after b t (n + sda_samples b) (clock_pulses n (i2c_delay b)) [])
  | None => Hang
  end.
Proof.
  induction n as [|n IH]; intros i data b Hsda; simpl.
  - unfold ret. now rewrite after_id.
  - unfold HIGH, LOW. bus_run. rewrite Hsda. simpl.
    rewrite IH by (autorewrite with bus; exact Hsda).
    autorewrite with bus.
    destruct (release n l); [|reflexivity].
    autorewrite with bus. rewrite Nat.add_succ_r. reflexivity.
Qed.

Lemma i2c_shift_in_eq b :
  i2c_shift_in b =
  match release 8 (scl_line b) with
  | Some t =>
      let v := sampled_byte (sda_line b) (sda_samples b) in
      Ret v (after b t (8 + sda_samples b) (shift_in_wave (i2c_delay b))
               [OpShiftIn v])
  | None => Hang
  end.
Proof.
  unfold i2c_shift_in, HIGH. unfold bind at 1. rewrite set_sda_eq.
  unfold bind at 1. rewrite shift_in_loop_eq by reflexivity.
  autorewrite with bus.
  destruct (release 8 (scl_line b)); [|reflexivity].
  unfold bind. rewrite returned_eq. autorewrite with bus.
  unfold ret, sampled_byte, shift_in_wave. rewrite app_nil_r.
  reflexivity.
Qed.

Lemma shift_out_loop_eq n val : forall i b,
  shift_out_loop n i val b =
  match release n (scl_line b) with
  | Some t =>
      Ret tt (after b t (sda_samples b) (data_bits n i (i2c_delay b) val) [])
  | None => Hang
  end.
Proof.
  induction n as [|n IH]; intros i b; simpl.
  - unfold ret. now rewrite after_id.
  - unfold HIGH, LOW. bus_run. rewrite IH. autorewrite with bus.
    destruct (release n l); [|reflexivity].
    autorewrite with bus. reflexivity.
Qed.

Lemma i2c_shift_out_eq val b :
  i2c_shift_out val b =
  match release 8 (scl_line b) with
  | Some t =>
      Ret tt (after b t (sda_samples b) (shift_out_wave (i2c_delay b) val)
                [OpShiftOut val])
  | None => Hang
  end.
Proof.
  unfold i2c_shift_out. unfold bind at 1. rewrite shift_out_loop_eq.
  destruct (release 8 (scl_line b)); [|reflexivity].
  unfold bind. rewrite returned_eq. autorewrite with bus.
  unfold shift_out_wave. rewrite app_nil_r. reflexivity.
Qed.

(** ** The object during a transfer *)

Section TransferState.
Variables (w : SoftWire) (b : Bus) (x : Z) (arr : list Z).

Lemma bus_transfer_state : bus (transfer_state w b x arr) = b.
Proof. unfold transfer_state. now destruct (target _). Qed.

Lemma itc_msg_transfer_state :
  itc_msg (transfer_state w b x arr) = i2c_msg.with_xferred x (itc_msg w).
Proof. unfold transfer_state. now destruct (target _). Qed.

Lemma array_transfer_state :
  array (target (i2c_msg.data (itc_msg w))) (transfer_state w b x arr) = arr.
Proof. unfold transfer_state. now destruct (target _). Qed.

Lemma array_transfer_state_other t :
  t <> target (i2c_msg.data (itc_msg w)) ->
  array t (transfer_state w b x arr) = array t w.
Proof.
  unfold transfer_state. destruct (target _), t; simpl; congruence.
Qed.

Lemma cursors_transfer_state :
  rx_buf_idx (transfer_state w b x arr) = rx_buf_idx w /\
  rx_buf_len (transfer_state w b x arr) = rx_buf_len w /\
  tx_buf_idx (transfer_state w b x arr) = tx_buf_idx w /\
  tx_buf_overflow (transfer_state w b x arr) = tx_buf_overflow w.
Proof. unfold transfer_state. now destruct (target _). Qed.

Lemma transfer_state_again b' x' arr' :
  transfer_state (transfer_state w b x arr) b' x' arr' =
  transfer_state w b' x' arr'.
Proof.
  unfold transfer_state.
  destruct (target (i2c_msg.data (itc_msg w))) eqn:E; simpl; rewrite E;
    reflexivity.
Qed.

Lemma on_bus_transfer_state {A} (m : M Bus A) :
  on_bus m (transfer_state w b x arr) =
  match m b with
  | Ret a b' => Ret a (transfer_state w b' x arr)
  | Hang => Hang
  | Fault => Fault
  end.
Proof.
  unfold on_bus. rewrite bus_transfer_state.
  destruct (m b); try reflexivity.
  unfold transfer_state. now destruct (target _).
Qed.

Lemma gets_itc_msg_transfer_state :
  gets itc_msg (transfer_state w b x arr) =
  Ret (i2c_msg.with_xferred x (itc_msg w)) (transfer_state w b x arr).
Proof. unfold gets. now rewrite itc_msg_transfer_state. Qed.

Lemma gets_clock_budget_transfer_state :
  gets clock_budget (transfer_state w b x arr) =
  Ret (S (List.length (scl_line b))) (transfer_state w b x arr).
Proof. unfold gets, clock_budget. now rewrite bus_transfer_state. Qed.

Lemma set_xferred_transfer_state x' :
  update_msg (i2c_msg.with_xferred x') (transfer_state w b x arr) =
  Ret tt (transfer_state w b x' arr).
Proof.
  unfold update_msg, modify, transfer_state. now destruct (target _).
Qed.

Lemma incr_xferred_transfer_state :
  update_msg (fun m => i2c_msg.with_xferred (uint16 (i2c_msg.xferred m + 1)) m)
    (transfer_state w b x arr) =
  Ret tt (transfer_state w b (uint16 (x + 1)) arr).
Proof.
  unfold update_msg, modify, transfer_state. now destruct (target _).
Qed.

Lemma load_transfer_state i :
  load (i2c_msg.data (itc_msg w)) i (transfer_state w b x arr) =
  let k := offset (i2c_msg.data (itc_msg w)) + i in
  if 0 <=? k then
    match arr !! Z.to_nat k with
    | Some v => Ret v (transfer_state w b x arr)
    | None => Fault
    end
  else Fault.
Proof. unfold load. now rewrite array_transfer_state. Qed.

Lemma store_transfer_state i v :
  store (i2c_msg.data (itc_msg w)) i v (transfer_state w b x arr) =
  let k := offset (i2c_msg.data (itc_msg w)) + i in
  if (0 <=? k) && (k <? Z.of_nat (List.length arr)) then
    Ret tt (transfer_state w b x (<[Z.to_nat k := v]> arr))
  else Fault.
Proof.
  unfold store. rewrite array_transfer_state. cbv zeta.
  destruct (_ && _); [|reflexivity].
  unfold transfer_state. now destruct (target _).
Qed.

End TransferState.

Lemma transfer_state_start w :
  with_itc_msg (i2c_msg.with_xferred 0 (itc_msg w)) w =
  transfer_state w (bus w) 0 (array (target (i2c_msg.data (itc_msg w))) w).
Proof. unfold transfer_state. destruct w. simpl. now destruct (target _). Qed.

(** ** The two transfer loops, run forward *)

Lemma uint16_small x : 0 <= x < 2 ^ 16 -> uint16 x = x.
Proof. intros H. unfold uint16. now apply Z.mod_small. Qed.

Lemma uint8_small x : 0 <= x < 2 ^ 8 -> uint8 x = x.
Proof. intros H. unfold uint8. now apply Z.mod_small. Qed.

Lemma received_length line k n : List.length (received line k n) = n.
Proof.
  revert k. induction n as [|n IH]; intros k; simpl; [reflexivity|].
  now rewrite IH.
Qed.

(** One step of symbolic execution on an object in mid-transfer. *)
Ltac wire_step :=
  first
    [ rewrite gets_itc_msg_transfer_state
    | rewrite gets_clock_budget_transfer_state
    | rewrite set_xferred_transfer_state
    | rewrite incr_xferred_transfer_state
    | rewrite load_transfer_state
    | rewrite store_transfer_state
    | rewrite on_bus_transfer_state
    | rewrite transfer_state_again
    | progress autorewrite with bus
    | progress cbn beta iota zeta
    | progress cbn [i2c_msg.xferred i2c_msg.length i2c_msg.data
                    i2c_msg.addr i2c_msg.flags i2c_msg.with_xferred negb] ].

Lemma recv_loop_run n : forall fuel w b x arr t,
  0 <= x ->
  x + Z.of_nat n = i2c_msg.length (itc_msg w) ->
  i2c_msg.length (itc_msg w) < 2 ^ 16 ->
  0 <= offset (i2c_msg.data (itc_msg w)) ->
  offset (i2c_msg.data (itc_msg w)) + i2c_msg.length (itc_msg w) <= Z.of_nat (List.length arr) ->
  release (9 * n) (scl_line b) = Some t ->
  (n < fuel)%nat ->
  recv_loop fuel (transfer_state w b x arr) =
  Ret tt
    (transfer_state w
       (after b t (8 * n + sda_samples b) (read_wave (i2c_delay b) n)
          (read_ops (received (sda_line b) (sda_samples b) n)))
       (i2c_msg.length (itc_msg w))
       (list_inserts (Z.to_nat (offset (i2c_msg.data (itc_msg w)) + x))
          (received (sda_line b) (sda_samples b) n) arr)).
Proof.
  induction n as [|n IH]; intros fuel w b x arr t Hx Hn Hlen Hoff Hfit
    Hrel Hfuel; (destruct fuel as [|fuel]; [lia|]); simpl recv_loop;
    unfold bind; repeat wire_step.
  - replace (x <? i2c_msg.length (itc_msg w)) with false by (symmetry; lia).
    simpl in Hrel. injection Hrel as <-. simpl. now rewrite after_id, <- Hn, Z.add_0_r.
  - replace (x <? i2c_msg.length (itc_msg w)) with true by (symmetry; lia).
    replace (9 * S n)%nat with (8 + (1 + 9 * n))%nat in Hrel by lia.
    rewrite release_add in Hrel. repeat wire_step. rewrite i2c_shift_in_eq.
    destruct (release 8 (scl_line b)) as [t8|]; [|discriminate].
    rewrite release_add in Hrel.
    repeat wire_step.
    replace ((0 <=? offset (i2c_msg.data (itc_msg w)) + x) &&
             (offset (i2c_msg.data (itc_msg w)) + x <? Z.of_nat (List.length arr))) with true
      by (symmetry; apply andb_true_intro; split; lia).
    repeat wire_step. rewrite uint16_small by lia.
    assert (Hcont :
      forall l1 o1 t1,
        release (9 * n) t1 = Some t ->
        recv_loop fuel
          (transfer_state w
             (after b t1 (8 + sda_samples b) l1 o1) (x + 1)
             (<[Z.to_nat (offset (i2c_msg.data (itc_msg w)) + x) :=
                  sampled_byte (sda_line b) (sda_samples b)]> arr)) =
        Ret tt
          (transfer_state w
             (after b t (8 * S n + sda_samples b)
                (l1 ++ read_wave (i2c_delay b) n)
                (o1 ++ read_ops
                         (received (sda_line b) (8 + sda_samples b) n)))
             (i2c_msg.length (itc_msg w))
             (list_inserts (Z.to_nat (offset (i2c_msg.data (itc_msg w)) + x))
                (received (sda_line b) (sda_samples b) (S n)) arr))).
    { intros l1 o1 t1 Ht1.
      rewrite (IH fuel w _ (x + 1) _ t);
        autorewrite with bus; try lia; try assumption.
      2: { rewrite length_insert. lia. }
      f_equal. f_equal.
      - f_equal. lia.
      - simpl received. simpl list_inserts.
        replace (Z.to_nat (offset (i2c_msg.data (itc_msg w)) + (x + 1)))
          with (S (Z.to_nat (offset (i2c_msg.data (itc_msg w)) + x))) by lia.
        rewrite list_insert_inserts_lt by lia.
        now rewrite Nat.add_comm. }
    destruct n as [|n'].
    + replace (x + 1 <? i2c_msg.length (itc_msg w)) with false by (symmetry; lia).
      repeat wire_step. rewrite i2c_send_nack_eq. autorewrite with bus.
      destruct (release 1 t8) as [t9|]; [|discriminate].
      repeat wire_step.
      rewrite Hcont by exact Hrel. cbn [received read_ops read_wave].
      rewrite !app_nil_r, <- ?app_assoc. reflexivity.
    + replace (x + 1 <? i2c_msg.length (itc_msg w)) with true by (symmetry; lia).
      repeat wire_step. rewrite i2c_send_ack_eq. autorewrite with bus.
      destruct (release 1 t8) as [t9|]; [|discriminate].
      repeat wire_step.
      rewrite Hcont by exact Hrel.
      replace (8 + sda_samples b)%nat with (sda_samples b + 8)%nat by lia.
      cbn [received read_ops read_wave].
      rewrite <- ?app_assoc. reflexivity.
Qed.

Lemma sublist_at_cons k v bytes arr :
  sublist_at k (v :: bytes) arr ->
  arr !! k = Some v /\ sublist_at (S k) bytes arr.
Proof.
  intros H. split.
  - specialize (H 0%nat v eq_refl). now rewrite Nat.add_0_r in H.
  - intros j v' Hj. specialize (H (S j) v' Hj).
    now rewrite Nat.add_succ_r in H.
Qed.

Lemma acks_S line k n :
  acks line k (S n) -> line k = false /\ acks line (S k) n.
Proof.
  intros H. split.
  - specialize (H 0%nat). rewrite Nat.add_0_r in H. apply H. lia.
  - intros j Hj. specialize (H (S j)). rewrite Nat.add_succ_r in H.
    apply H. lia.
Qed.

Lemma staged_sublist_at p n w :
  sublist_at (Z.to_nat (offset p)) (staged p n w) (array (target p) w).
Proof.
  intros j v. unfold staged. intros H.
  apply lookup_take_Some in H as [H _]. now rewrite lookup_drop in H.
Qed.

Lemma staged_length p n w :
  0 <= n -> in_bounds p n w -> List.length (staged p n w) = Z.to_nat n.
Proof.
  intros Hn [Hoff Hfit]. unfold staged. rewrite length_take, length_drop. lia.
Qed.

(** Every byte of [bytes] is acknowledged: the loop runs to its end. *)
Lemma send_loop_acked bytes : forall fuel w b x i arr t,
  let n := List.length bytes in
  0 <= i ->
  i + Z.of_nat n = i2c_msg.length (itc_msg w) ->
  i2c_msg.length (itc_msg w) <= 255 ->
  0 <= x ->
  x + Z.of_nat n < 2 ^ 16 ->
  0 <= offset (i2c_msg.data (itc_msg w)) ->
  sublist_at (Z.to_nat (offset (i2c_msg.data (itc_msg w)) + i)) bytes arr ->
  acks (sda_line b) (sda_samples b) n ->
  release (9 * n) (scl_line b) = Some t ->
  (n < fuel)%nat ->
  send_loop fuel i (transfer_state w b x arr) =
  Ret None
    (transfer_state w
       (after b t (n + sda_samples b) (write_wave (i2c_delay b) bytes)
          (write_ops bytes))
       (x + Z.of_nat n) arr).
Proof.
  induction bytes as [|v bytes IH]; intros fuel w b x i arr t n;
    subst n; intros Hi Hn Hlen Hx Hxn Hoff Hsub Hack Hrel Hfuel;
    (destruct fuel as [|fuel]; [simpl in Hfuel; lia|]); simpl send_loop;
    unfold bind; repeat wire_step; simpl List.length in *.
  - replace (i <? i2c_msg.length (itc_msg w)) with false by (symmetry; lia).
    simpl in Hrel. injection Hrel as <-. simpl.
    now rewrite after_id, Z.add_0_r.
  - replace (i <? i2c_msg.length (itc_msg w)) with true by (symmetry; lia).
    apply sublist_at_cons in Hsub as [Hv Hsub].
    apply acks_S in Hack as [Hack0 Hack].
    repeat wire_step.
    replace (0 <=? offset (i2c_msg.data (itc_msg w)) + i) with true
      by (symmetry; lia).
    rewrite Hv. repeat wire_step.
    replace (9 * S (List.length bytes))%nat
      with (8 + (1 + 9 * List.length bytes))%nat in Hrel by lia.
    rewrite release_add in Hrel. repeat wire_step. rewrite i2c_shift_out_eq.
    destruct (release 8 (scl_line b)) as [t8|]; [|discriminate].
    rewrite release_add in Hrel. repeat wire_step.
    rewrite i2c_get_ack_eq. autorewrite with bus.
    destruct (release 1 t8) as [t9|]; [|discriminate].
    repeat wire_step. rewrite Hack0. repeat wire_step.
    rewrite uint16_small, uint8_small by lia.
    rewrite (IH fuel w _ (x + 1) (i + 1) arr t);
      autorewrite with bus; try lia; try assumption.
    + repeat wire_step. simpl write_wave. simpl write_ops.
      rewrite <- !app_assoc. simpl app.
      f_equal. f_equal; [f_equal; lia | lia].
    + replace (Z.to_nat (offset (i2c_msg.data (itc_msg w)) + (i + 1)))
        with (S (Z.to_nat (offset (i2c_msg.data (itc_msg w)) + i))) by lia. exact Hsub.
Qed.

(** The bytes [bytes] are acknowledged and the next one, [v], is not: the
    loop stops the bus and leaves through [return I2C_NACK_DATA]. *)
Lemma send_loop_nack bytes : forall v fuel w b x i arr t,
  let n := List.length bytes in
  0 <= i ->
  i + Z.of_nat n < i2c_msg.length (itc_msg w) ->
  i + Z.of_nat n <= 255 ->
  0 <= x ->
  x + Z.of_nat n < 2 ^ 16 ->
  0 <= offset (i2c_msg.data (itc_msg w)) ->
  sublist_at (Z.to_nat (offset (i2c_msg.data (itc_msg w)) + i)) (bytes ++ [v]) arr ->
  acks (sda_line b) (sda_samples b) n ->
  sda_line b (sda_samples b + n) = true ->
  release (9 * n + 10) (scl_line b) = Some t ->
  (n < fuel)%nat ->
  send_loop fuel i (transfer_state w b x arr) =
  Ret (Some I2C_NACK_DATA)
    (transfer_state w
       (after b t (S n + sda_samples b)
          (write_wave (i2c_delay b) bytes ++ shift_out_wave (i2c_delay b) v
             ++ get_ack_wave (i2c_delay b) ++ stop_wave (i2c_delay b))
          (write_ops bytes ++ [OpShiftOut v; OpGetAck false; OpStop]))
       (x + Z.of_nat n) arr).
Proof.
  induction bytes as [|v0 bytes IH]; intros v fuel w b x i arr t n;
    subst n; intros Hi Hn Hlen Hx Hxn Hoff Hsub Hack Hnack Hrel Hfuel;
    (destruct fuel as [|fuel]; [simpl in Hfuel; lia|]); simpl send_loop;
    unfold bind; repeat wire_step; simpl List.length in *;
    (replace (i <? i2c_msg.length (itc_msg w)) with true by (symmetry; lia));
    simpl app in Hsub; apply sublist_at_cons in Hsub as [Hv Hsub];
    repeat wire_step;
    (replace (0 <=? offset (i2c_msg.data (itc_msg w)) + i) with true
       by (symmetry; lia));
    rewrite Hv; repeat wire_step.
  - rewrite Nat.add_0_r in Hnack.
    change (release (8 + (1 + 1)) (scl_line b) = Some t) in Hrel.
    rewrite release_add in Hrel. repeat wire_step. rewrite i2c_shift_out_eq.
    destruct (release 8 (scl_line b)) as [t8|]; [|discriminate].
    rewrite release_add in Hrel. repeat wire_step.
    rewrite i2c_get_ack_eq. autorewrite with bus.
    destruct (release 1 t8) as [t9|]; [|discriminate].
    repeat wire_step. rewrite Hnack. repeat wire_step.
    rewrite i2c_stop_eq. autorewrite with bus. rewrite Hrel.
    repeat wire_step. unfold ret. simpl write_wave. simpl write_ops.
    rewrite <- !app_assoc, Z.add_0_r. reflexivity.
  - apply acks_S in Hack as [Hack0 Hack].
    replace (9 * S (List.length bytes) + 10)%nat
      with (8 + (1 + (9 * List.length bytes + 10)))%nat in Hrel by lia.
    rewrite release_add in Hrel. repeat wire_step. rewrite i2c_shift_out_eq.
    destruct (release 8 (scl_line b)) as [t8|]; [|discriminate].
    rewrite release_add in Hrel. repeat wire_step.
    rewrite i2c_get_ack_eq. autorewrite with bus.
    destruct (release 1 t8) as [t9|]; [|discriminate].
    repeat wire_step. rewrite Hack0. repeat wire_step.
    rewrite uint16_small, uint8_small by lia.
    rewrite (IH v fuel w _ (x + 1) (i + 1) arr t);
      autorewrite with bus; try lia; try assumption.
    + repeat wire_step. simpl write_wave. simpl write_ops.
      rewrite <- !app_assoc. simpl app.
      f_equal. f_equal; [f_equal; lia | lia].
    + replace (Z.to_nat (offset (i2c_msg.data (itc_msg w)) + (i + 1)))
        with (S (Z.to_nat (offset (i2c_msg.data (itc_msg w)) + i))) by lia. exact Hsub.
    + rewrite Nat.add_succ_r in Hnack. exact Hnack.
Qed.

(** ** [process], path by path *)

Lemma release_split n k tape t :
  release (n + k) tape = Some t ->
  exists t1, release n tape = Some t1 /\ release k t1 = Some t.
Proof.
  rewrite release_add. destruct (release n tape) as [t1|]; [|discriminate].
  intros H. now exists t1.
Qed.

Section Process.
Variable I2C_MSG_READ : Z.

Lemma sla_addr_with_xferred x m :
  sla_addr I2C_MSG_READ (i2c_msg.with_xferred x m) = sla_addr I2C_MSG_READ m.
Proof. reflexivity. Qed.

Lemma address_phase w {A} (k : bool -> M SoftWire A) :
  (update_msg (i2c_msg.with_xferred 0) ;;
   m <- gets itc_msg ;;
   on_bus i2c_start ;;
   on_bus (i2c_shift_out (sla_addr I2C_MSG_READ m)) ;;
   ack <- on_bus i2c_get_ack ;;
   k ack) w =
  match release 9 (scl_line (bus w)) with
  | Some t9 =>
      k (negb (sda_line (bus w) (sda_samples (bus w))))
        (addressed I2C_MSG_READ w t9)
  | None => Hang
  end.
Proof.
  change 9%nat with (8 + 1)%nat. rewrite release_add.
  unfold bind at 1. unfold update_msg at 1, modify at 1.
  rewrite transfer_state_start.
  unfold bind. repeat wire_step. rewrite i2c_start_eq. repeat wire_step.
  rewrite i2c_shift_out_eq. autorewrite with bus.
  destruct (release 8 (scl_line (bus w))) as [t8|]; [|reflexivity].
  repeat wire_step. rewrite i2c_get_ack_eq. autorewrite with bus.
  destruct (release 1 t8) as [t9|]; [|reflexivity].
  repeat wire_step. unfold addressed, address_wave, address_ops.
  rewrite sla_addr_with_xferred, <- !app_assoc. reflexivity.
Qed.

(** The slave does not acknowledge its address. *)
Lemma process_nack_addr stop w t :
  let b := bus w in
  let d := i2c_delay b in
  let a := sla_addr I2C_MSG_READ (itc_msg w) in
  sda_line b (sda_samples b) = true ->
  release 10 (scl_line b) = Some t ->
  process I2C_MSG_READ stop w =
  Ret I2C_NACK_ADDR
    (transfer_state w
       (after b t (S (sda_samples b)) (address_wave d a ++ stop_wave d)
          (address_ops a false ++ [OpStop]))
       0 (array (target (i2c_msg.data (itc_msg w))) w)).
Proof.
  intros b d a Hnack Hrel. subst b d a.
  change 10%nat with (9 + 1)%nat in Hrel.
  apply release_split in Hrel as (t9 & H9 & H1).
  unfold process. rewrite address_phase, H9.
  unfold addressed. rewrite Hnack. cbn [negb]. unfold bind.
  repeat wire_step.
  rewrite i2c_stop_eq. autorewrite with bus. rewrite H1.
  repeat wire_step. reflexivity.
Qed.


(** The last step of a transfer that went through: stop or repeated
    start, with [H] the release of the clock it needs. *)
Ltac final_step H :=
  unfold bind, final_wave, final_op;
  match goal with
  | |- context [?stop =? 1] => destruct (stop =? 1)
  end;
  repeat wire_step;
  [rewrite i2c_stop_eq | rewrite i2c_repeated_start_eq];
  autorewrite with bus; rewrite H; repeat wire_step; unfold ret.

(** A read whose address is acknowledged. *)
Lemma process_read stop w t :
  let b := bus w in
  let d := i2c_delay b in
  let m := itc_msg w in
  let a := sla_addr I2C_MSG_READ m in
  let p := i2c_msg.data m in
  let n := Z.to_nat (i2c_msg.length m) in
  let bytes := received (sda_line b) (S (sda_samples b)) n in
  i2c_msg.flags m = I2C_MSG_READ ->
  sda_line b (sda_samples b) = false ->
  0 <= i2c_msg.length m < 2 ^ 16 ->
  in_bounds p (i2c_msg.length m) w ->
  release (10 + 9 * n) (scl_line b) = Some t ->
  process I2C_MSG_READ stop w =
  Ret I2C_OK
    (transfer_state w
       (after b t (8 * n + S (sda_samples b))
          (address_wave d a ++ read_wave d n ++ final_wave d stop)
          (address_ops a true ++ read_ops bytes ++ [final_op stop]))
       (i2c_msg.length m)
       (list_inserts (Z.to_nat (offset p)) bytes (array (target p) w))).
Proof.
  intros b d m a p n bytes Hflags Hack Hlen [Hoff Hfit] Hrel.
  subst b d m a p bytes.
  replace (10 + 9 * n)%nat with (9 + (9 * n + 1))%nat in Hrel by lia.
  apply release_split in Hrel as (t9 & H9 & Hrel).
  apply release_split in Hrel as (tn & Hn & H1).
  unfold process. rewrite address_phase, H9.
  unfold addressed. rewrite Hack. cbn [negb]. unfold bind at 1.
  repeat wire_step. rewrite Hflags, Z.eqb_refl.
  unfold bind at 1. unfold bind at 1. repeat wire_step.
  unfold bind at 1.
  rewrite (recv_loop_run n _ w _ 0 _ tn); autorewrite with bus;
    try lia; try assumption.
  2: { apply release_length in Hn. lia. }
  repeat wire_step. unfold bind at 1. unfold ret at 1. repeat wire_step.
  final_step H1; rewrite Z.add_0_r, <- !app_assoc; reflexivity.
Qed.


(** A write whose address and bytes are all acknowledged. *)
Lemma process_write stop w t :
  let b := bus w in
  let d := i2c_delay b in
  let m := itc_msg w in
  let a := sla_addr I2C_MSG_READ m in
  let p := i2c_msg.data m in
  let n := Z.to_nat (i2c_msg.length m) in
  let bytes := staged p (i2c_msg.length m) w in
  i2c_msg.flags m <> I2C_MSG_READ ->
  acks (sda_line b) (sda_samples b) (S n) ->
  0 <= i2c_msg.length m <= 255 ->
  in_bounds p (i2c_msg.length m) w ->
  release (10 + 9 * n) (scl_line b) = Some t ->
  process I2C_MSG_READ stop w =
  Ret I2C_OK
    (transfer_state w
       (after b t (n + S (sda_samples b))
          (address_wave d a ++ write_wave d bytes ++ final_wave d stop)
          (address_ops a true ++ write_ops bytes ++ [final_op stop]))
       (i2c_msg.length m) (array (target p) w)).
Proof.
  intros b d m a p n bytes Hflags Hacks Hlen Hin Hrel.
  assert (Hbytes : List.length bytes = n)
    by (apply staged_length; [lia | exact Hin]).
  destruct Hin as [Hoff Hfit].
  apply acks_S in Hacks as [Hack Hacks].
  subst b d m a p.
  replace (10 + 9 * n)%nat with (9 + (9 * n + 1))%nat in Hrel by lia.
  apply release_split in Hrel as (t9 & H9 & Hrel).
  apply release_split in Hrel as (tn & Hn & H1).
  unfold process. rewrite address_phase, H9.
  unfold addressed. rewrite Hack. cbn [negb]. unfold bind at 1.
  repeat wire_step.
  replace (i2c_msg.flags (itc_msg w) =? I2C_MSG_READ) with false
    by (symmetry; apply Z.eqb_neq; exact Hflags).
  unfold bind at 1. unfold bind at 1. repeat wire_step.
  rewrite (send_loop_acked bytes _ w _ 0 0 _ tn); autorewrite with bus;
    rewrite ?Hbytes; try lia; try assumption.
  - repeat wire_step.
    final_step H1; unfold n;
      rewrite Z.add_0_l, Z2Nat.id, <- !app_assoc by lia; reflexivity.
  - rewrite Z.add_0_r. apply staged_sublist_at.
  - apply release_length in Hn. lia.
Qed.

Lemma staged_snoc_sublist_at p k v w :
  0 <= k ->
  0 <= offset p ->
  deref p k w = Some v ->
  sublist_at (Z.to_nat (offset p)) (staged p k w ++ [v])
    (array (target p) w).
Proof.
  intros Hk Hoff Hv. unfold deref in Hv.
  assert (Hlt := lookup_lt_Some _ _ _ Hv).
  assert (Hlen : List.length (staged p k w) = Z.to_nat k).
  { unfold staged. rewrite length_take, length_drop. lia. }
  intros j u Hj.
  destruct (Nat.lt_ge_cases j (Z.to_nat k)) as [Hlt'|Hge].
  - rewrite lookup_app_l in Hj by lia. now apply staged_sublist_at in Hj.
  - rewrite lookup_app_r in Hj by lia. rewrite Hlen in Hj.
    destruct (j - Z.to_nat k)%nat as [|j'] eqn:E; [|discriminate].
    injection Hj as <-.
    replace (Z.to_nat (offset p) + j)%nat with (Z.to_nat (offset p + k))
      by lia.
    exact Hv.
Qed.

(** A write whose address and first [k] bytes are acknowledged and whose
    next byte, [v], is not. *)
Lemma process_write_nack stop w t k v :
  let b := bus w in
  let d := i2c_delay b in
  let m := itc_msg w in
  let a := sla_addr I2C_MSG_READ m in
  let p := i2c_msg.data m in
  let bytes := staged p (Z.of_nat k) w in
  i2c_msg.flags m <> I2C_MSG_READ ->
  Z.of_nat k < i2c_msg.length m ->
  (k <= 255)%nat ->
  0 <= offset p ->
  deref p (Z.of_nat k) w = Some v ->
  acks (sda_line b) (sda_samples b) (S k) ->
  sda_line b (sda_samples b + S k) = true ->
  release (9 * k + 19) (scl_line b) = Some t ->
  process I2C_MSG_READ stop w =
  Ret I2C_NACK_DATA
    (transfer_state w
       (after b t (S k + S (sda_samples b))
          (address_wave d a ++ write_wave d bytes ++ shift_out_wave d v
             ++ get_ack_wave d ++ stop_wave d)
          (address_ops a true ++ write_ops bytes
             ++ [OpShiftOut v; OpGetAck false; OpStop]))
       (Z.of_nat k) (array (target p) w)).
Proof.
  intros b d m a p bytes Hflags Hk Hk255 Hoff Hv Hacks Hnack Hrel.
  assert (Hsub := staged_snoc_sublist_at p (Z.of_nat k) v w
                    (Nat2Z.is_nonneg k) Hoff Hv).
  assert (Hbytes : List.length bytes = k).
  { unfold bytes, staged. unfold deref in Hv.
    apply lookup_lt_Some in Hv. rewrite length_take, length_drop. lia. }
  apply acks_S in Hacks as [Hack Hacks].
  subst b d m a p.
  replace (9 * k + 19)%nat with (9 + (9 * k + 10))%nat in Hrel by lia.
  apply release_split in Hrel as (t9 & H9 & Hrel).
  unfold process. rewrite address_phase, H9.
  unfold addressed. rewrite Hack. cbn [negb]. unfold bind at 1.
  repeat wire_step.
  replace (i2c_msg.flags (itc_msg w) =? I2C_MSG_READ) with false
    by (symmetry; apply Z.eqb_neq; exact Hflags).
  unfold bind at 1. unfold bind at 1. repeat wire_step.
  rewrite (send_loop_nack bytes v _ w _ 0 0 _ t); autorewrite with bus;
    rewrite ?Hbytes; try lia; try assumption.
  - repeat wire_step. unfold ret. rewrite Z.add_0_l. reflexivity.
  - rewrite Z.add_0_r. exact Hsub.
  - rewrite Nat.add_succ_l, <- Nat.add_succ_r. exact Hnack.
  - apply release_length in Hrel. lia.
Qed.

End Process.

(** ** What every returning run looks like *)

Lemma recv_loop_shape fuel : forall w b x arr,
  match recv_loop fuel (transfer_state w b x arr) with
  | Ret _ w' => exists l o, moved_on w b w' l o
  | _ => True
  end.
Proof.
  induction fuel as [|fuel IH]; intros w b x arr; simpl recv_loop;
    [exact I|].
  unfold bind. repeat wire_step.
  destruct (x <? i2c_msg.length (itc_msg w)); repeat wire_step.
  2: { exists [], [], (scl_line b), (sda_samples b), x, arr.
       now rewrite after_id. }
  rewrite i2c_shift_in_eq. destruct (release 8 (scl_line b)); [|exact I].
  repeat wire_step. destruct (_ && _); [|exact I]. repeat wire_step.
  destruct (uint16 (x + 1) <? i2c_msg.length (itc_msg w)); repeat wire_step;
    [rewrite i2c_send_ack_eq | rewrite i2c_send_nack_eq];
    autorewrite with bus; (destruct (release 1 l); [|exact I]);
    repeat wire_step;
    match goal with
    | |- context [recv_loop fuel (transfer_state w ?b' ?x' ?arr')] =>
        specialize (IH w b' x' arr');
        destruct (recv_loop fuel (transfer_state w b' x' arr'));
        try exact I;
        destruct IH as (l1 & o1 & t1 & s1 & x1 & arr1 & ->)
    end;
    autorewrite with bus; do 6 eexists; reflexivity.
Qed.

Lemma send_loop_shape fuel : forall i w b x arr,
  match send_loop fuel i (transfer_state w b x arr) with
  | Ret r w' =>
      exists l o,
        moved_on w b w' l o /\
        (r = None \/
         r = Some I2C_NACK_DATA /\
         exists l' o',
           l = l' ++ stop_wave (i2c_delay b) /\ o = o' ++ [OpStop])
  | _ => True
  end.
Proof.
  induction fuel as [|fuel IH]; intros i w b x arr; simpl send_loop;
    [exact I|].
  unfold bind. repeat wire_step.
  destruct (i <? i2c_msg.length (itc_msg w)); repeat wire_step.
  2: { exists [], []. split; [|now left].
       exists (scl_line b), (sda_samples b), x, arr. now rewrite after_id. }
  destruct (0 <=? _); [|exact I]. destruct (arr !! _) as [v|]; [|exact I].
  repeat wire_step. rewrite i2c_shift_out_eq.
  destruct (release 8 (scl_line b)) as [t8|]; [|exact I].
  repeat wire_step. rewrite i2c_get_ack_eq. autorewrite with bus.
  destruct (release 1 t8) as [t9|]; [|exact I]. repeat wire_step.
  destruct (sda_line b (sda_samples b)); repeat wire_step.
  - rewrite i2c_stop_eq. autorewrite with bus.
    destruct (release 1 t9) as [t10|]; [|exact I]. repeat wire_step.
    unfold ret. do 2 eexists. split; [do 4 eexists; reflexivity|].
    right. split; [reflexivity|].
    exists (shift_out_wave (i2c_delay b) v ++ get_ack_wave (i2c_delay b)),
      [OpShiftOut v; OpGetAck false].
    rewrite <- !app_assoc. split; reflexivity.
  - match goal with
    | |- context [send_loop fuel ?i' (transfer_state w ?b' ?x' ?arr')] =>
        specialize (IH i' w b' x' arr');
        destruct (send_loop fuel i' (transfer_state w b' x' arr'));
        try exact I;
        destruct IH as (l1 & o1 & (t1 & s1 & x1 & arr1 & ->) & Hend)
    end.
    autorewrite with bus. do 2 eexists.
    split; [do 4 eexists; reflexivity|].
    destruct Hend as [->|(-> & l' & o' & -> & ->)]; [now left|right].
    split; [reflexivity|]. autorewrite with bus.
    do 2 eexists. rewrite !app_assoc. split; reflexivity.
Qed.

Lemma latch_stop_wave p v d : latch p v (stop_wave d) = true.
Proof. now destruct p. Qed.

Lemma latch_repeated_start_wave v d :
  latch SCL v (repeated_start_wave d) = true /\
  latch SDA v (repeated_start_wave d) = false.
Proof. now split. Qed.

(** Every run of [process] that returns has driven the address phase and
    ended in a stop condition, or, when it went through and no stop was asked
    for, in a repeated start. *)
Lemma process_shape I2C_MSG_READ stop w :
  let b := bus w in
  let d := i2c_delay b in
  let a := sla_addr I2C_MSG_READ (itc_msg w) in
  match process I2C_MSG_READ stop w with
  | Ret st w' =>
      exists l o ack,
        moved_on w b w' (address_wave d a ++ l) (address_ops a ack ++ o) /\
        ((exists l' o', l = l' ++ stop_wave d /\ o = o' ++ [OpStop]) \/
         (st = I2C_OK /\ stop <> 1 /\
          exists l' o',
            l = l' ++ repeated_start_wave d /\ o = o' ++ [OpRepeatedStart]))
  | _ => True
  end.
Proof.
  intros b d a. subst b d a. unfold process. rewrite address_phase.
  destruct (release 9 (scl_line (bus w))) as [t9|]; [|exact I].
  unfold addressed.
  destruct (sda_line (bus w) (sda_samples (bus w))); cbn [negb].
  - unfold bind. repeat wire_step. rewrite i2c_stop_eq.
    autorewrite with bus. destruct (release 1 t9) as [t10|]; [|exact I].
    repeat wire_step. unfold ret.
    exists (stop_wave (i2c_delay (bus w))), [OpStop], false.
    split; [do 4 eexists; reflexivity|].
    left. now exists [], [].
  - unfold bind at 1. repeat wire_step.
    assert (Hfinal : forall b1 x1 arr1 l1 o1,
      b1 = after (bus w) (scl_line b1) (sda_samples b1)
             (address_wave (i2c_delay (bus w))
                (sla_addr I2C_MSG_READ (itc_msg w)) ++ l1)
             (address_ops (sla_addr I2C_MSG_READ (itc_msg w)) true ++ o1) ->
      match
        ((if stop =? 1 then on_bus i2c_stop else on_bus i2c_repeated_start) ;;
         ret I2C_OK) (transfer_state w b1 x1 arr1)
      with
      | Ret st w' =>
          exists l o ack,
            moved_on w (bus w) w'
              (address_wave (i2c_delay (bus w))
                 (sla_addr I2C_MSG_READ (itc_msg w)) ++ l)
              (address_ops (sla_addr I2C_MSG_READ (itc_msg w)) ack ++ o) /\
            ((exists l' o',
                l = l' ++ stop_wave (i2c_delay (bus w)) /\
                o = o' ++ [OpStop]) \/
             (st = I2C_OK /\ stop <> 1 /\
              exists l' o',
                l = l' ++ repeated_start_wave (i2c_delay (bus w)) /\
                o = o' ++ [OpRepeatedStart]))
      | _ => True
      end).
    { intros b1 x1 arr1 l1 o1 Hb1. unfold bind.
      destruct (Z.eqb_spec stop 1) as [Hstop|Hstop]; repeat wire_step;
        [rewrite i2c_stop_eq | rewrite i2c_repeated_start_eq];
        (destruct (release 1 (scl_line b1)) as [t1|]; [|exact I]);
        repeat wire_step; unfold ret; rewrite Hb1; autorewrite with bus;
        do 2 eexists; exists true;
        (split; [do 4 eexists; rewrite <- !app_assoc; reflexivity|]).
      - left. do 2 eexists. split; reflexivity.
      - right. split; [reflexivity|]. split; [exact Hstop|].
        do 2 eexists. split; reflexivity. }
    destruct (i2c_msg.flags (itc_msg w) =? I2C_MSG_READ).
    + unfold bind at 1. unfold bind at 1. repeat wire_step.
      unfold bind at 1.
      match goal with
      | |- context [recv_loop ?f (transfer_state w ?b' ?x' ?arr')] =>
          pose proof (recv_loop_shape f w b' x' arr') as Hloop;
          destruct (recv_loop f (transfer_state w b' x' arr'));
          try exact I;
          destruct Hloop as (l1 & o1 & t1 & s1 & x1 & arr1 & ->)
      end.
      unfold ret at 1. cbn beta iota. autorewrite with bus.
      apply (Hfinal _ _ _ l1 o1). autorewrite with bus. reflexivity.
    + unfold bind at 1. unfold bind at 1. repeat wire_step.
      match goal with
      | |- context [send_loop ?f ?i (transfer_state w ?b' ?x' ?arr')] =>
          pose proof (send_loop_shape f i w b' x' arr') as Hloop;
          destruct (send_loop f i (transfer_state w b' x' arr')) as [r w'| |];
          try exact I;
          destruct Hloop as (l1 & o1 & (t1 & s1 & x1 & arr1 & ->) & Hend)
      end.
      autorewrite with bus in Hend.
      destruct Hend as [->|(-> & l' & o' & -> & ->)]; cbn beta iota.
      * autorewrite with bus. apply (Hfinal _ _ _ l1 o1).
        autorewrite with bus. reflexivity.
      * unfold ret. autorewrite with bus.
        do 3 eexists. split; [do 4 eexists; reflexivity|]. left.
        do 2 eexists. split; reflexivity.
Qed.

(** * The claims *)

Lemma transfer_state_buffers w b x :
  let w' := transfer_state w b x
              (array (target (i2c_msg.data (itc_msg w))) w) in
  rx_buf w' = rx_buf w /\ tx_buf w' = tx_buf w.
Proof. unfold transfer_state. now destruct (target _). Qed.

(** C1. Every run of [process] that returns has, after the start condition,
    ended in a stop condition (clock and data high) or, when the transfer
    went through and no stop was asked for, in a repeated start (clock high,
    data low): the clock latch is high whatever the status returned. *)
Theorem process_leaves_clock_high I2C_MSG_READ stop w st w' :
  process I2C_MSG_READ stop w = Ret st w' ->
  let d := i2c_delay (bus w) in
  scl_out (bus w') = true /\
  exists mid_wave mid_ops,
    (wave (bus w') = wave (bus w) ++ start_wave d ++ mid_wave ++ stop_wave d /\
     ops (bus w') = ops (bus w) ++ OpStart :: mid_ops ++ [OpStop] /\
     sda_out (bus w') = true) \/
    (st = I2C_OK /\ stop <> 1 /\
     wave (bus w') =
       wave (bus w) ++ start_wave d ++ mid_wave ++ repeated_start_wave d /\
     ops (bus w') = ops (bus w) ++ OpStart :: mid_ops ++ [OpRepeatedStart] /\
     sda_out (bus w') = false).
Proof.
  intros Hrun d. subst d.
  pose proof (process_shape I2C_MSG_READ stop w) as Hshape.
  cbv zeta in Hshape. rewrite Hrun in Hshape.
  destruct Hshape as (l & o & ack & (t & s & x & arr & ->) & Hend).
  rewrite bus_transfer_state. autorewrite with bus.
  unfold address_wave, address_ops.
  destruct Hend as [(l' & o' & -> & ->)|(-> & Hstop & l' & o' & -> & ->)].
  - rewrite !latch_app, !latch_stop_wave. split; [reflexivity|].
    exists (shift_out_wave (i2c_delay (bus w))
              (sla_addr I2C_MSG_READ (itc_msg w))
            ++ get_ack_wave (i2c_delay (bus w)) ++ l'),
      (OpShiftOut (sla_addr I2C_MSG_READ (itc_msg w)) :: OpGetAck ack :: o').
    left. rewrite <- !app_assoc. repeat split; reflexivity.
  - rewrite !latch_app. split; [apply latch_repeated_start_wave|].
    exists (shift_out_wave (i2c_delay (bus w))
              (sla_addr I2C_MSG_READ (itc_msg w))
            ++ get_ack_wave (i2c_delay (bus w)) ++ l'),
      (OpShiftOut (sla_addr I2C_MSG_READ (itc_msg w)) :: OpGetAck ack :: o').
    right. rewrite <- !app_assoc.
    repeat split; try reflexivity; try assumption.
Qed.

(** C2. When the slave leaves the data line high at the acknowledge sample
    of the address byte (and lets the clock rise the ten times this takes),
    [process] drives a stop condition and returns [I2C_NACK_ADDR]: the only
    byte shifted is the address, one data sample has been taken, the
    transferred count is 0 and both buffers are untouched. *)
Theorem process_nack_on_address I2C_MSG_READ stop w t :
  sda_line (bus w) (sda_samples (bus w)) = true ->
  release 10 (scl_line (bus w)) = Some t ->
  exists w',
    process I2C_MSG_READ stop w = Ret I2C_NACK_ADDR w' /\
    ops (bus w') =
      ops (bus w) ++
      [OpStart; OpShiftOut (sla_addr I2C_MSG_READ (itc_msg w));
       OpGetAck false; OpStop] /\
    wave (bus w') =
      wave (bus w) ++
      address_wave (i2c_delay (bus w)) (sla_addr I2C_MSG_READ (itc_msg w)) ++
      stop_wave (i2c_delay (bus w)) /\
    i2c_msg.xferred (itc_msg w') = 0 /\
    sda_samples (bus w') = S (sda_samples (bus w)) /\
    scl_out (bus w') = true /\
    sda_out (bus w') = true /\
    rx_buf w' = rx_buf w /\
    tx_buf w' = tx_buf w.
Proof.
  intros Hnack Hrel. eexists. split.
  - apply process_nack_addr; eassumption.
  - rewrite bus_transfer_state, itc_msg_transfer_state.
    autorewrite with bus. rewrite !latch_app, !latch_stop_wave.
    repeat split; try reflexivity; apply transfer_state_buffers.
Qed.

(** C3. A write of [N] staged bytes: when the slave acknowledges the address
    and the first [K] bytes ([K < N]) and leaves the data line high at the
    acknowledge sample of byte [K + 1], [process] drives a stop condition and
    returns [I2C_NACK_DATA] with a transferred count of exactly [K]. *)
Theorem process_nack_on_data I2C_MSG_READ stop w t K v :
  let m := itc_msg w in
  let p := i2c_msg.data m in
  let k := Z.to_nat K in
  i2c_msg.flags m <> I2C_MSG_READ ->
  0 <= K < i2c_msg.length m ->
  K <= 255 ->
  0 <= offset p ->
  deref p K w = Some v ->
  acks (sda_line (bus w)) (sda_samples (bus w)) (S k) ->
  sda_line (bus w) (sda_samples (bus w) + S k) = true ->
  release (9 * k + 19) (scl_line (bus w)) = Some t ->
  exists w',
    process I2C_MSG_READ stop w = Ret I2C_NACK_DATA w' /\
    i2c_msg.xferred (itc_msg w') = K /\
    ops (bus w') =
      ops (bus w) ++ address_ops (sla_addr I2C_MSG_READ m) true ++
      write_ops (staged p K w) ++ [OpShiftOut v; OpGetAck false; OpStop] /\
    scl_out (bus w') = true /\
    sda_out (bus w') = true /\
    rx_buf w' = rx_buf w /\
    tx_buf w' = tx_buf w.
Proof.
  intros m p k Hflags HK H255 Hoff Hv Hacks Hnack Hrel. subst m p.
  assert (HKk : Z.of_nat k = K) by (unfold k; lia).
  rewrite <- HKk in Hv, HK.
  eexists. split.
  - apply (process_write_nack I2C_MSG_READ stop w t k v); try assumption;
      lia.
  - rewrite bus_transfer_state, itc_msg_transfer_state.
    autorewrite with bus. rewrite !latch_app, !latch_stop_wave, HKk.
    repeat split; try reflexivity; apply transfer_state_buffers.
Qed.

Lemma lor_shiftl_small A bit :
  0 <= A <= 127 -> 0 <= bit <= 1 ->
  0 <= Z.lor (Z.shiftl A 1) bit < 2 ^ 8.
Proof.
  intros HA Hbit. rewrite Z.shiftl_mul_pow2 by lia.
  assert (H0 : 0 <= Z.lor (A * 2 ^ 1) bit) by (apply Z.lor_nonneg; lia).
  split; [exact H0|].
  destruct (Z.eq_dec (Z.lor (A * 2 ^ 1) bit) 0) as [->|Hne]; [lia|].
  apply Z.log2_lt_pow2; [lia|].
  rewrite Z.log2_lor by lia.
  apply Z.max_lub_lt.
  - destruct (Z.eq_dec A 0) as [->|HA0]; [simpl; lia|].
    apply Z.log2_lt_pow2; lia.
  - destruct (Z.eq_dec bit 0) as [->|Hb]; [simpl; lia|].
    apply Z.log2_lt_pow2; lia.
Qed.

Lemma sla_addr_encoding I2C_MSG_READ m :
  0 <= i2c_msg.addr m <= 127 ->
  sla_addr I2C_MSG_READ m =
  Z.lor (Z.shiftl (i2c_msg.addr m) 1)
        (if i2c_msg.flags m =? I2C_MSG_READ then 1 else 0).
Proof.
  intros HA. unfold sla_addr, I2C_READ.
  assert (H0 := lor_shiftl_small (i2c_msg.addr m) 0 HA ltac:(lia)).
  assert (H1 := lor_shiftl_small (i2c_msg.addr m) 1 HA ltac:(lia)).
  rewrite Z.lor_0_r in *.
  rewrite (uint8_small (Z.shiftl (i2c_msg.addr m) 1)) by exact H0.
  destruct (i2c_msg.flags m =? I2C_MSG_READ).
  - now apply uint8_small.
  - now rewrite Z.lor_0_r.
Qed.






(** ** The staging API *)

Lemma write_eq I2C_TXRX_BUFFER_SIZE value w :
  write I2C_TXRX_BUFFER_SIZE value w =
  if tx_buf_idx w =? I2C_TXRX_BUFFER_SIZE then
    Ret tt (with_tx_buf_overflow true w)
  else if (0 <=? tx_buf_idx w)
          && (tx_buf_idx w <? Z.of_nat (List.length (tx_buf w))) then
    Ret tt
      (with_itc_msg
         (i2c_msg.with_length (uint16 (i2c_msg.length (itc_msg w) + 1))
            (itc_msg w))
         (with_tx_buf_idx (uint8 (tx_buf_idx w + 1))
            (with_tx_buf (<[Z.to_nat (tx_buf_idx w) := value]> (tx_buf w))
               w)))
  else Fault.
Proof.
  unfold write, bind, gets, store, modify, update_msg.
  destruct (tx_buf_idx w =? I2C_TXRX_BUFFER_SIZE); [reflexivity|].
  cbn [offset target array with_array]. rewrite Z.add_0_l.
  now destruct (_ && _).
Qed.

(** C6. A byte staged when the transmit index equals the buffer capacity
    only sets the overflow flag: buffer, index and message length keep their
    values, and further bytes change nothing more.  When the flag is set,
    [endTransmission] returns [I2C_DATA_TOO_LONG] and leaves the object as
    it is: no line event, no primitive, no clock or data sample. *)
Theorem write_at_capacity_overflows I2C_TXRX_BUFFER_SIZE I2C_MSG_READ v w :
  tx_buf_idx w = I2C_TXRX_BUFFER_SIZE ->
  let w1 := with_tx_buf_overflow true w in
  write I2C_TXRX_BUFFER_SIZE v w = Ret tt w1 /\
  tx_buf_overflow w1 = true /\
  tx_buf w1 = tx_buf w /\
  tx_buf_idx w1 = tx_buf_idx w /\
  i2c_msg.length (itc_msg w1) = i2c_msg.length (itc_msg w) /\
  (forall v', write I2C_TXRX_BUFFER_SIZE v' w1 = Ret tt w1) /\
  (forall s, tx_buf_overflow s = true ->
     endTransmission I2C_MSG_READ s = Ret I2C_DATA_TOO_LONG s).
Proof.
  intros Hidx w1. repeat split.
  - rewrite write_eq, Hidx, Z.eqb_refl. reflexivity.
  - intros v'. rewrite write_eq. cbn [tx_buf_idx w1 with_tx_buf_overflow].
    rewrite Hidx, Z.eqb_refl. reflexivity.
  - intros s Hs. unfold endTransmission, bind, gets. rewrite Hs. reflexivity.
Qed.

Lemma begin_eq self_addr w :
  begin self_addr w =
  match skip_low (scl_line (bus w)) with
  | Some t =>
      let b := with_sda_mode OUTPUT_OPEN_DRAIN
                 (with_scl_mode OUTPUT_OPEN_DRAIN (bus w)) in
      Ret tt
        (with_bus
           (after b t (sda_samples b)
              (scl_to (i2c_delay b) HIGH ++ sda_to (i2c_delay b) HIGH) [])
           (reset_cursors w))
  | None => Hang
  end.
Proof.
  unfold begin, bind, on_bus, pinMode, modify. cbn [bus with_bus].
  change (bus (reset_cursors w)) with (bus w).
  rewrite set_scl_high_eq. cbn [scl_line with_sda_mode with_scl_mode].
  destruct (skip_low (scl_line (bus w))) as [t|]; [|reflexivity].
  cbn [bus with_bus]. rewrite set_sda_eq. autorewrite with bus.
  reflexivity.
Qed.

(** [process] moves nothing but the pins, the transferred count and the
    array the message points into. *)
Lemma process_frame I2C_MSG_READ stop w st w' :
  process I2C_MSG_READ stop w = Ret st w' ->
  rx_buf_idx w' = rx_buf_idx w /\
  rx_buf_len w' = rx_buf_len w /\
  tx_buf_idx w' = tx_buf_idx w /\
  tx_buf_overflow w' = tx_buf_overflow w /\
  exists x, itc_msg w' = i2c_msg.with_xferred x (itc_msg w).
Proof.
  intros Hrun. pose proof (process_shape I2C_MSG_READ stop w) as Hshape.
  cbv zeta in Hshape. rewrite Hrun in Hshape.
  destruct Hshape as (l & o & ack & (t & s & x & arr & ->) & _).
  pose proof (cursors_transfer_state w (after (bus w) t s
    (address_wave (i2c_delay (bus w)) (sla_addr I2C_MSG_READ (itc_msg w)) ++ l)
    (address_ops (sla_addr I2C_MSG_READ (itc_msg w)) ack ++ o)) x arr)
    as (H1 & H2 & H3 & H4).
  repeat split; try assumption.
  exists x. apply itc_msg_transfer_state.
Qed.



Lemma end_keeps_index_and_overflow :
  result overflow_then_end (bench (prompt 1) (fun _ => false)) =
  Some (32, true).
Proof. vm_compute. reflexivity. Qed.

(** C8 at the failing input.  With one of three received bytes consumed the
    read cursor is at 1, so 31 bytes are left behind it; a request for 32
    bytes is not cut down to 31: the message length is 32 and the
    destination starts at [&rx_buf[1]].  When the slave answers, the 32nd
    byte is stored at [rx_buf[32]], past the end of the array; when it does
    not, the call returns with the length still 32. *)
Theorem requestFrom_overruns_behind_cursor :
  result one_byte_consumed_state (bench (prompt 400) (fun _ => false)) =
    Some (0, 1, 3, 32%nat) /\
  request_past_cursor (bench (prompt 400) (fun _ => false)) = Fault /\
  result request_past_cursor_length (bench (prompt 400) (nack_at 25)) =
    Some (32, 31).
Proof. repeat split; vm_compute; reflexivity. Qed.

(** With the read cursor at 0, [requestFrom] does what C8 says: the count
    is cut down to the capacity, the transfer is a read, the available
    length grows by the transferred count, and the value returned is the
    new available length, which is what [available] reports. *)
Lemma requestFrom_at_cursor_0 I2C_TXRX_BUFFER_SIZE I2C_MSG_READ address
    num_bytes w r w' :
  rx_buf_idx w = 0 ->
  requestFrom I2C_TXRX_BUFFER_SIZE I2C_MSG_READ address num_bytes w =
    Ret r w' ->
  let count := Z.min num_bytes I2C_TXRX_BUFFER_SIZE in
  exists st w1,
    process I2C_MSG_READ 1
      (with_itc_msg
         (i2c_msg.mk address I2C_MSG_READ (uint16 count)
            (i2c_msg.xferred (itc_msg w)) (mkPtr RX 0)) w) = Ret st w1 /\
    rx_buf_len w' = uint8 (rx_buf_len w + i2c_msg.xferred (itc_msg w1)) /\
    r = rx_buf_len w' /\
    r = available w'.
Proof.
  intros Hidx. unfold requestFrom, bind, update_msg, modify, gets,
    process_legacy.
  cbn [itc_msg with_itc_msg rx_buf_idx i2c_msg.with_addr i2c_msg.with_flags
       i2c_msg.with_length i2c_msg.with_data i2c_msg.addr i2c_msg.flags
       i2c_msg.length i2c_msg.xferred i2c_msg.data].
  rewrite Hidx.
  replace (if num_bytes >? I2C_TXRX_BUFFER_SIZE
           then I2C_TXRX_BUFFER_SIZE else num_bytes)
    with (Z.min num_bytes I2C_TXRX_BUFFER_SIZE)
    by (destruct (Z.gtb_spec num_bytes I2C_TXRX_BUFFER_SIZE); lia).
  match goal with
  | |- context [process I2C_MSG_READ 1 ?w0] =>
      destruct (process I2C_MSG_READ 1 w0) as [st w1| |] eqn:Hrun;
      try discriminate;
      destruct (process_frame _ _ _ _ _ Hrun) as (Hi & Hl & _)
  end.
  unfold id. cbn [rx_buf_len with_rx_buf_len with_itc_msg itc_msg].
  intros [= <- <-]. exists st, w1. split; [exact Hrun|].
  cbn [rx_buf_idx rx_buf_len with_itc_msg] in Hi, Hl.
  rewrite Hl. repeat split.
  unfold available. cbn [rx_buf_len rx_buf_idx with_itc_msg with_rx_buf_len].
  rewrite Hi, Hidx, Z.sub_0_r. unfold uint8. now rewrite Z.mod_mod.
Qed.


Lemma read_eq w :
  read w =
  if rx_buf_idx w =? rx_buf_len w then
    Ret 0 (with_rx_buf_len 0 (with_rx_buf_idx 0 w))
  else if 0 <=? rx_buf_idx w then
    match rx_buf w !! Z.to_nat (rx_buf_idx w) with
    | Some v =>
        if rx_buf_idx w =? rx_buf_len w - 1 then
          Ret v (with_rx_buf_len 0 (with_rx_buf_idx 0 w))
        else Ret v (with_rx_buf_idx (uint8 (rx_buf_idx w + 1)) w)
    | None => Fault
    end
  else Fault.
Proof.
  unfold read, bind, gets, modify, ret, id, load.
  cbn [offset target array]. rewrite Z.add_0_l.
  destruct (rx_buf_idx w =? rx_buf_len w); [reflexivity|].
  destruct (rx_buf_idx w =? rx_buf_len w - 1);
    destruct (0 <=? rx_buf_idx w); try reflexivity;
    now destruct (rx_buf w !! _).
Qed.



(** * Further properties *)

(** ** Staging bytes *)

Lemma with_staged_nil w : with_staged [] w = w.
Proof.
  unfold with_staged. cbn [List.length list_inserts Z.of_nat].
  rewrite !Z.add_0_r. now destruct w as [? [] ? ? ? ? ? ?].
Qed.

Lemma with_staged_cons v bytes w :
  tx_buf_idx w + 1 < 2 ^ 8 ->
  0 <= tx_buf_idx w ->
  with_staged bytes
    (with_itc_msg
       (i2c_msg.with_length (i2c_msg.length (itc_msg w) + 1) (itc_msg w))
       (with_tx_buf_idx (tx_buf_idx w + 1)
          (with_tx_buf (<[Z.to_nat (tx_buf_idx w) := v]> (tx_buf w)) w))) =
  with_staged (v :: bytes) w.
Proof.
  intros Hlt H0. unfold with_staged.
  cbn [itc_msg with_itc_msg tx_buf_idx with_tx_buf_idx tx_buf with_tx_buf
       i2c_msg.length i2c_msg.with_length List.length list_inserts
       i2c_msg.addr i2c_msg.flags i2c_msg.xferred i2c_msg.data
       bus rx_buf rx_buf_idx rx_buf_len tx_buf_overflow].
  replace (Z.to_nat (tx_buf_idx w + 1)) with (S (Z.to_nat (tx_buf_idx w)))
    by lia.
  rewrite list_insert_inserts_lt by lia.
  rewrite Nat2Z.inj_succ.
  replace (i2c_msg.length (itc_msg w) + 1 + Z.of_nat (List.length bytes))
    with (i2c_msg.length (itc_msg w) + Z.succ (Z.of_nat (List.length bytes)))
    by lia.
  replace (tx_buf_idx w + 1 + Z.of_nat (List.length bytes))
    with (tx_buf_idx w + Z.succ (Z.of_nat (List.length bytes))) by lia.
  now destruct w as [? [] ? ? ? ? ? ?].
Qed.

(** Bytes that fit behind the transmit index are stored there in order;
    index and message length grow by their number. *)
Lemma writes_fit I2C_TXRX_BUFFER_SIZE bytes : forall w,
  let n := Z.of_nat (List.length bytes) in
  0 <= tx_buf_idx w ->
  tx_buf_idx w + n <= I2C_TXRX_BUFFER_SIZE ->
  I2C_TXRX_BUFFER_SIZE <= Z.of_nat (List.length (tx_buf w)) ->
  I2C_TXRX_BUFFER_SIZE < 2 ^ 8 ->
  0 <= i2c_msg.length (itc_msg w) ->
  i2c_msg.length (itc_msg w) + n < 2 ^ 16 ->
  writes I2C_TXRX_BUFFER_SIZE bytes w = Ret tt (with_staged bytes w).
Proof.
  induction bytes as [|v bytes IH]; intros w n Hidx Hfit Hbuf Hsize Hlen0 Hlen;
    subst n.
  - cbn [writes]. unfold ret. now rewrite with_staged_nil.
  - cbn [writes List.length] in *. unfold bind. rewrite write_eq.
    replace (tx_buf_idx w =? I2C_TXRX_BUFFER_SIZE) with false
      by (symmetry; lia).
    replace ((0 <=? tx_buf_idx w)
             && (tx_buf_idx w <? Z.of_nat (List.length (tx_buf w))))
      with true by (symmetry; apply andb_true_intro; split; lia).
    rewrite uint16_small, uint8_small by lia.
    rewrite IH;
      cbn [itc_msg with_itc_msg tx_buf_idx with_tx_buf_idx tx_buf with_tx_buf
           i2c_msg.length i2c_msg.with_length];
      rewrite ?length_insert; try lia.
    now rewrite with_staged_cons by lia.
Qed.

Lemma writes_app I2C_TXRX_BUFFER_SIZE l1 l2 w :
  writes I2C_TXRX_BUFFER_SIZE (l1 ++ l2) w =
  (writes I2C_TXRX_BUFFER_SIZE l1 ;; writes I2C_TXRX_BUFFER_SIZE l2) w.
Proof.
  revert w. induction l1 as [|v l1 IH]; intros w; [reflexivity|].
  cbn [app writes]. unfold bind in *.
  destruct (write I2C_TXRX_BUFFER_SIZE v w); [apply IH | reflexivity ..].
Qed.

(** With the transmit index at the capacity, any number of further bytes
    only sets the overflow flag. *)
Lemma writes_full I2C_TXRX_BUFFER_SIZE bytes w :
  tx_buf_idx w = I2C_TXRX_BUFFER_SIZE ->
  bytes <> [] ->
  writes I2C_TXRX_BUFFER_SIZE bytes w = Ret tt (with_tx_buf_overflow true w).
Proof.
  intros Hidx Hne.
  assert (Haux : forall l s,
    tx_buf_idx s = I2C_TXRX_BUFFER_SIZE ->
    writes I2C_TXRX_BUFFER_SIZE l s =
    Ret tt (match l with [] => s | _ :: _ => with_tx_buf_overflow true s end)).
  { induction l as [|v l IH]; intros s Hs; [reflexivity|].
    cbn [writes]. unfold bind. rewrite write_eq, Hs, Z.eqb_refl.
    rewrite IH by exact Hs. now destruct l. }
  rewrite Haux by exact Hidx. now destruct bytes.
Qed.

(** The loop of [write(uint8_t*, int)] is one [write] per byte. *)
Lemma write_loop_writes I2C_TXRX_BUFFER_SIZE buf n : forall i w,
  0 <= i ->
  i + Z.of_nat n <= Z.of_nat (List.length buf) ->
  i + Z.of_nat n <= 2 ^ 8 ->
  write_loop I2C_TXRX_BUFFER_SIZE n i buf w =
  writes I2C_TXRX_BUFFER_SIZE (take n (drop (Z.to_nat i) buf)) w.
Proof.
  induction n as [|n IH]; intros i w Hi Hbuf H8; [reflexivity|].
  cbn [write_loop].
  destruct (buf !! Z.to_nat i) as [v|] eqn:Hv.
  2: { apply lookup_ge_None in Hv. lia. }
  rewrite (drop_S _ _ _ Hv). cbn [take writes]. unfold bind.
  destruct (write I2C_TXRX_BUFFER_SIZE v w) as [[] w1| |]; try reflexivity.
  destruct n as [|n']; [reflexivity|].
  rewrite uint8_small by lia. rewrite IH by lia.
  now replace (Z.to_nat (i + 1)) with (S (Z.to_nat i)) by lia.
Qed.

Lemma write_buf_writes I2C_TXRX_BUFFER_SIZE buf len w :
  0 <= len <= 255 ->
  len <= Z.of_nat (List.length buf) ->
  write_buf I2C_TXRX_BUFFER_SIZE buf len w =
  writes I2C_TXRX_BUFFER_SIZE (take (Z.to_nat len) buf) w.
Proof.
  intros Hlen Hbuf. unfold write_buf.
  replace (len <=? 255) with true by (symmetry; lia).
  rewrite write_loop_writes by lia. reflexivity.
Qed.

Lemma write_str_writes I2C_TXRX_BUFFER_SIZE bytes rest w :
  Forall (fun c => c <> 0) bytes ->
  write_str I2C_TXRX_BUFFER_SIZE (bytes ++ 0 :: rest) w =
  writes I2C_TXRX_BUFFER_SIZE bytes w.
Proof.
  intros Hnz. revert w. induction Hnz as [|c bytes Hc Hnz IH]; intros w.
  - reflexivity.
  - cbn [app write_str writes].
    replace (c =? 0) with false by (symmetry; lia).
    unfold bind. destruct (write I2C_TXRX_BUFFER_SIZE c w); auto.
Qed.

Lemma staged_with_staged bytes w :
  0 <= tx_buf_idx w ->
  tx_buf_idx w + Z.of_nat (List.length bytes)
    <= Z.of_nat (List.length (tx_buf w)) ->
  staged (mkPtr TX (tx_buf_idx w)) (Z.of_nat (List.length bytes))
    (with_staged bytes w) = bytes.
Proof.
  intros Hidx Hfit. unfold staged, with_staged.
  cbn [offset target array tx_buf with_itc_msg with_tx_buf_idx with_tx_buf].
  rewrite Nat2Z.id. apply list_eq. intros j.
  destruct (Nat.lt_ge_cases j (List.length bytes)) as [Hj|Hj].
  - rewrite lookup_take_lt, lookup_drop by lia.
    rewrite list_lookup_inserts by lia. f_equal. lia.
  - rewrite lookup_take_ge by lia. symmetry. now apply lookup_ge_None.
Qed.

(** [beginTransmission] followed by [write(buf, n)] with bytes that fit,
    as one step. *)
Lemma stage_fitting I2C_TXRX_BUFFER_SIZE a buf w :
  0 <= tx_buf_idx w ->
  tx_buf_idx w + Z.of_nat (List.length buf) <= I2C_TXRX_BUFFER_SIZE ->
  I2C_TXRX_BUFFER_SIZE <= Z.of_nat (List.length (tx_buf w)) ->
  I2C_TXRX_BUFFER_SIZE < 2 ^ 8 ->
  (beginTransmission a ;;
   write_buf I2C_TXRX_BUFFER_SIZE buf (Z.of_nat (List.length buf))) w =
  Ret tt
    (with_staged buf
       (with_itc_msg
          (i2c_msg.mk a 0 0 (i2c_msg.xferred (itc_msg w))
             (mkPtr TX (tx_buf_idx w))) w)).
Proof.
  intros Hidx Hfit Hbuf Hsize.
  set (w0 := with_itc_msg
               (i2c_msg.mk a 0 0 (i2c_msg.xferred (itc_msg w))
                  (mkPtr TX (tx_buf_idx w))) w).
  assert (Hbegin : beginTransmission a w = Ret tt w0) by reflexivity.
  unfold bind at 1. rewrite Hbegin.
  rewrite write_buf_writes by lia.
  rewrite Nat2Z.id, firstn_all.
  apply writes_fit; cbn; lia.
Qed.

(** X1. Staging round trip: after [beginTransmission(a)] and
    [write(buf, n)] with [n] bytes that fit behind the transmit index, the
    message is addressed to [a], is a write, has length [n], starts at the
    old transmit index, and holds exactly the bytes of [buf] in order; the
    pins and the receive side are untouched. *)
Theorem staged_bytes_round_trip I2C_TXRX_BUFFER_SIZE a buf w :
  let n := Z.of_nat (List.length buf) in
  0 <= tx_buf_idx w ->
  tx_buf_idx w + n <= I2C_TXRX_BUFFER_SIZE ->
  I2C_TXRX_BUFFER_SIZE <= Z.of_nat (List.length (tx_buf w)) ->
  I2C_TXRX_BUFFER_SIZE < 2 ^ 8 ->
  exists w',
    (beginTransmission a ;; write_buf I2C_TXRX_BUFFER_SIZE buf n) w =
      Ret tt w' /\
    i2c_msg.addr (itc_msg w') = a /\
    i2c_msg.flags (itc_msg w') = 0 /\
    i2c_msg.length (itc_msg w') = n /\
    i2c_msg.data (itc_msg w') = mkPtr TX (tx_buf_idx w) /\
    staged (i2c_msg.data (itc_msg w')) (i2c_msg.length (itc_msg w')) w' = buf /\
    tx_buf_idx w' = tx_buf_idx w + n /\
    tx_buf_overflow w' = tx_buf_overflow w /\
    bus w' = bus w /\
    rx_buf w' = rx_buf w.
Proof.
  intros n Hidx Hfit Hbuf Hsize.
  set (w0 := with_itc_msg
               (i2c_msg.mk a 0 0 (i2c_msg.xferred (itc_msg w))
                  (mkPtr TX (tx_buf_idx w))) w).
  exists (with_staged buf w0). split.
  - apply stage_fitting; assumption.
  - cbn [with_staged itc_msg with_itc_msg i2c_msg.addr i2c_msg.flags
         i2c_msg.length i2c_msg.data i2c_msg.with_length w0 tx_buf_idx
         with_tx_buf_idx with_tx_buf tx_buf_overflow bus rx_buf].
    repeat split; try reflexivity.
    apply (staged_with_staged buf w0); cbn; lia.
Qed.

(** X2. Staging more than fits: when [buf] holds more bytes than there is
    room behind the transmit index, [write(buf, n)] stores the bytes there
    is room for, leaves the index at the capacity, counts only the stored
    bytes in the message length, and sets the overflow flag; the other
    bytes are dropped. *)
Theorem write_buf_keeps_what_fits I2C_TXRX_BUFFER_SIZE buf w :
  let n := Z.of_nat (List.length buf) in
  let room := I2C_TXRX_BUFFER_SIZE - tx_buf_idx w in
  0 <= tx_buf_idx w <= I2C_TXRX_BUFFER_SIZE ->
  room < n <= 255 ->
  I2C_TXRX_BUFFER_SIZE <= Z.of_nat (List.length (tx_buf w)) ->
  I2C_TXRX_BUFFER_SIZE < 2 ^ 8 ->
  0 <= i2c_msg.length (itc_msg w) ->
  i2c_msg.length (itc_msg w) + room < 2 ^ 16 ->
  exists w',
    write_buf I2C_TXRX_BUFFER_SIZE buf n w = Ret tt w' /\
    tx_buf_overflow w' = true /\
    tx_buf_idx w' = I2C_TXRX_BUFFER_SIZE /\
    i2c_msg.length (itc_msg w') = i2c_msg.length (itc_msg w) + room /\
    staged (mkPtr TX (tx_buf_idx w)) room w' = take (Z.to_nat room) buf /\
    List.length (tx_buf w') = List.length (tx_buf w).
Proof.
  intros n room Hidx Hn Hbuf Hsize Hlen0 Hlen.
  set (fit := take (Z.to_nat room) buf).
  assert (Hfitlen : Z.of_nat (List.length fit) = room).
  { unfold fit. rewrite length_take. subst n. lia. }
  exists (with_tx_buf_overflow true (with_staged fit w)). split.
  - rewrite write_buf_writes by (subst n; lia).
    unfold n. rewrite Nat2Z.id, firstn_all.
    rewrite <- (take_drop (Z.to_nat room) buf) at 1. fold fit.
    rewrite writes_app. unfold bind.
    rewrite writes_fit by lia.
    apply writes_full.
    + cbn. lia.
    + intros Hnil. apply (f_equal (@List.length Z)) in Hnil.
      rewrite length_drop in Hnil. cbn in Hnil. subst n. lia.
  - cbn [tx_buf_overflow with_tx_buf_overflow with_staged tx_buf_idx
         with_itc_msg with_tx_buf_idx itc_msg i2c_msg.length
         i2c_msg.with_length tx_buf with_tx_buf].
    rewrite Hfitlen, length_inserts. repeat split; try lia.
    rewrite <- Hfitlen at 1.
    apply (staged_with_staged fit w); lia.
Qed.

(** X3. [write] on a C string stages the characters before the first zero byte and
    nothing else: as long as they fit, they are stored behind the transmit
    index in order, and the zero byte and whatever follows it are not
    looked at. *)
Theorem write_str_stops_at_nul I2C_TXRX_BUFFER_SIZE bytes rest w :
  let n := Z.of_nat (List.length bytes) in
  Forall (fun c => c <> 0) bytes ->
  0 <= tx_buf_idx w ->
  tx_buf_idx w + n <= I2C_TXRX_BUFFER_SIZE ->
  I2C_TXRX_BUFFER_SIZE <= Z.of_nat (List.length (tx_buf w)) ->
  I2C_TXRX_BUFFER_SIZE < 2 ^ 8 ->
  0 <= i2c_msg.length (itc_msg w) ->
  i2c_msg.length (itc_msg w) + n < 2 ^ 16 ->
  exists w',
    write_str I2C_TXRX_BUFFER_SIZE (bytes ++ 0 :: rest) w = Ret tt w' /\
    staged (mkPtr TX (tx_buf_idx w)) n w' = bytes /\
    tx_buf_idx w' = tx_buf_idx w + n /\
    i2c_msg.length (itc_msg w') = i2c_msg.length (itc_msg w) + n /\
    tx_buf_overflow w' = tx_buf_overflow w.
Proof.
  intros n Hnz Hidx Hfit Hbuf Hsize Hlen0 Hlen.
  exists (with_staged bytes w). split.
  - rewrite write_str_writes by exact Hnz. now apply writes_fit.
  - split; [apply (staged_with_staged bytes w); lia|].
    repeat split.
Qed.

Lemma write_loop_keeps_overflow I2C_TXRX_BUFFER_SIZE buf n : forall i w w',
  tx_buf_overflow w = true ->
  write_loop I2C_TXRX_BUFFER_SIZE n i buf w = Ret tt w' ->
  tx_buf_overflow w' = true /\ bus w' = bus w.
Proof.
  induction n as [|n IH]; intros i w w' Hovf; cbn [write_loop].
  - intros [= <-]. now split.
  - destruct (buf !! Z.to_nat i) as [v|]; [|discriminate].
    unfold bind. rewrite write_eq.
    destruct (tx_buf_idx w =? I2C_TXRX_BUFFER_SIZE).
    + intros H. apply IH in H; [|reflexivity]. exact H.
    + destruct (_ && _); [|discriminate].
      intros H. apply IH in H; [|exact Hovf]. exact H.
Qed.

(** X4. The overflow flag outlives transactions: once it is set, a whole
    further transaction ([beginTransmission], [write(buf, len)],
    [endTransmission]) returns [I2C_DATA_TOO_LONG] without touching the
    pins, and the flag is still set afterwards. *)
Theorem overflow_outlives_transaction I2C_TXRX_BUFFER_SIZE I2C_MSG_READ a buf
    len w st w' :
  tx_buf_overflow w = true ->
  (beginTransmission a ;;
   write_buf I2C_TXRX_BUFFER_SIZE buf len ;;
   endTransmission I2C_MSG_READ) w = Ret st w' ->
  st = I2C_DATA_TOO_LONG /\ tx_buf_overflow w' = true /\ bus w' = bus w.
Proof.
  intros Hovf. unfold bind at 1.
  change (beginTransmission a w)
    with (Ret tt (with_itc_msg
                    (i2c_msg.mk a 0 0 (i2c_msg.xferred (itc_msg w))
                       (mkPtr TX (tx_buf_idx w))) w)).
  cbn beta iota. unfold bind at 1, write_buf.
  destruct (len <=? 255).
  - destruct (write_loop _ _ _ _ _) as [[] w1| |] eqn:Hloop;
      try discriminate.
    apply write_loop_keeps_overflow in Hloop as [Hovf1 Hbus1];
      [|exact Hovf].
    unfold endTransmission, bind, gets. rewrite Hovf1.
    intros [= <- <-]. repeat split; assumption.
  - unfold bind. destruct (write_loop _ _ _ _ _); discriminate.
Qed.

(** ** Whole transactions *)

Lemma final_op_1 : final_op 1 = OpStop.
Proof. reflexivity. Qed.

(** X5. A whole write transaction that goes through: [beginTransmission(a)],
    [write(buf, n)] with bytes that fit, [endTransmission] against a slave
    that acknowledges the address and every byte.  The status is [I2C_OK];
    the bus has seen the start condition, the address byte [a << 1], the
    bytes of [buf] in order, each acknowledged, and the stop condition; the
    transferred count is [n] and the transmit index is back at 0. *)
Theorem write_transaction_goes_through I2C_TXRX_BUFFER_SIZE I2C_MSG_READ a
    buf w t :
  let n := Z.of_nat (List.length buf) in
  I2C_MSG_READ <> 0 ->
  0 <= a <= 127 ->
  tx_buf_overflow w = false ->
  0 <= tx_buf_idx w ->
  tx_buf_idx w + n <= I2C_TXRX_BUFFER_SIZE ->
  I2C_TXRX_BUFFER_SIZE <= Z.of_nat (List.length (tx_buf w)) ->
  I2C_TXRX_BUFFER_SIZE < 2 ^ 8 ->
  acks (sda_line (bus w)) (sda_samples (bus w)) (S (List.length buf)) ->
  release (10 + 9 * List.length buf) (scl_line (bus w)) = Some t ->
  exists w',
    (beginTransmission a ;;
     write_buf I2C_TXRX_BUFFER_SIZE buf n ;;
     endTransmission I2C_MSG_READ) w = Ret I2C_OK w' /\
    ops (bus w') =
      ops (bus w) ++ [OpStart; OpShiftOut (Z.shiftl a 1); OpGetAck true] ++
      write_ops buf ++ [OpStop] /\
    i2c_msg.xferred (itc_msg w') = n /\
    tx_buf_idx w' = 0 /\
    tx_buf_overflow w' = false /\
    scl_out (bus w') = true /\
    sda_out (bus w') = true /\
    scl_line (bus w') = t.
Proof.
  intros n Hread Ha Hovf Hidx Hfit Hbuf Hsize Hacks Hrel.
  set (w0 := with_itc_msg
               (i2c_msg.mk a 0 0 (i2c_msg.xferred (itc_msg w))
                  (mkPtr TX (tx_buf_idx w))) w).
  set (w1 := with_staged buf w0).
  assert (Hstage :
    (beginTransmission a ;; write_buf I2C_TXRX_BUFFER_SIZE buf n) w =
      Ret tt w1) by (apply stage_fitting; assumption).
  assert (Haddr : i2c_msg.addr (itc_msg w1) = a) by reflexivity.
  assert (Hflags : i2c_msg.flags (itc_msg w1) = 0) by reflexivity.
  assert (Hlen : i2c_msg.length (itc_msg w1) = n) by reflexivity.
  assert (Hdata : i2c_msg.data (itc_msg w1) = mkPtr TX (tx_buf_idx w))
    by reflexivity.
  assert (Hstaged :
    staged (i2c_msg.data (itc_msg w1)) (i2c_msg.length (itc_msg w1)) w1 =
      buf) by (apply (staged_with_staged buf w0); cbn; lia).
  assert (Hidx1 : tx_buf_idx w1 = tx_buf_idx w + n) by reflexivity.
  assert (Hovf1 : tx_buf_overflow w1 = tx_buf_overflow w) by reflexivity.
  assert (Hbus1 : bus w1 = bus w) by reflexivity.
  assert (Hn : Z.to_nat (i2c_msg.length (itc_msg w1)) = List.length buf)
    by (rewrite Hlen; unfold n; lia).
  assert (Hlen1 : List.length (tx_buf w1) = List.length (tx_buf w))
    by apply length_inserts.
  clearbody w1. clear w0.
  pose proof (process_write I2C_MSG_READ 1 w1 t) as Hproc.
  cbv zeta in Hproc. rewrite Hn, Hbus1, Hflags, Hdata, Hlen in Hproc.
  rewrite <- Hdata, <- Hlen, Hstaged in Hproc. rewrite Hdata, Hlen in Hproc.
  specialize (Hproc ltac:(congruence) Hacks ltac:(unfold n; lia)).
  assert (Hin : in_bounds (mkPtr TX (tx_buf_idx w)) n w1).
  { split; cbn [offset target array]; [exact Hidx | rewrite Hlen1; lia]. }
  specialize (Hproc Hin Hrel).
  eexists. split.
  - rewrite <- (bind_assoc_run _ _ _ w).
    rewrite (bind_Ret _ _ _ _ _ Hstage).
    unfold endTransmission, bind, gets, process_legacy.
    rewrite Hovf1, Hovf, Hproc. reflexivity.
  - cbn [bus with_tx_buf_overflow with_tx_buf_idx itc_msg tx_buf_idx
         tx_buf_overflow].
    rewrite bus_transfer_state, itc_msg_transfer_state.
    autorewrite with bus. rewrite !latch_app, final_op_1.
    unfold final_wave. cbn [Z.eqb Pos.eqb]. rewrite !latch_stop_wave.
    repeat split.
    unfold address_ops.
    rewrite sla_addr_encoding by (rewrite Haddr; exact Ha).
    rewrite Haddr, Hflags.
    replace (0 =? I2C_MSG_READ) with false by (symmetry; lia).
    now rewrite Z.lor_0_r.
Qed.


(** The run against an absent device, for use in whole transactions. *)
Lemma process_nack_on_address_run I2C_MSG_READ stop w t :
  sda_line (bus w) (sda_samples (bus w)) = true ->
  release 10 (scl_line (bus w)) = Some t ->
  exists w',
    process I2C_MSG_READ stop w = Ret I2C_NACK_ADDR w' /\
    ops (bus w') =
      ops (bus w) ++
      [OpStart; OpShiftOut (sla_addr I2C_MSG_READ (itc_msg w));
       OpGetAck false; OpStop] /\
    i2c_msg.xferred (itc_msg w') = 0 /\
    scl_out (bus w') = true /\
    sda_out (bus w') = true /\
    tx_buf w' = tx_buf w /\
    rx_buf w' = rx_buf w /\
    rx_buf_idx w' = rx_buf_idx w /\
    rx_buf_len w' = rx_buf_len w /\
    i2c_msg.flags (itc_msg w') = i2c_msg.flags (itc_msg w).
Proof.
  intros Hnack Hrel. eexists. split.
  - apply process_nack_addr; eassumption.
  - rewrite bus_transfer_state, itc_msg_transfer_state.
    autorewrite with bus. rewrite !latch_app, !latch_stop_wave.
    pose proof (cursors_transfer_state w
      (after (bus w) t (S (sda_samples (bus w)))
         (address_wave (i2c_delay (bus w))
            (sla_addr I2C_MSG_READ (itc_msg w)) ++
          stop_wave (i2c_delay (bus w)))
         (address_ops (sla_addr I2C_MSG_READ (itc_msg w)) false ++ [OpStop]))
      0 (array (target (i2c_msg.data (itc_msg w))) w)) as (H1 & H2 & _).
    repeat split; try reflexivity; try assumption;
      apply transfer_state_buffers.
Qed.

(** X6. Committing to an address nobody answers: with the overflow flag
    clear, [endTransmission] returns [I2C_NACK_ADDR] (the status of
    [process], not [I2C_OK]), the bus is stopped with both lines high, and
    the transmit index is reset, so the staged bytes are given up. *)
Theorem endTransmission_absent_device I2C_MSG_READ w t :
  tx_buf_overflow w = false ->
  sda_line (bus w) (sda_samples (bus w)) = true ->
  release 10 (scl_line (bus w)) = Some t ->
  exists w',
    endTransmission I2C_MSG_READ w = Ret I2C_NACK_ADDR w' /\
    tx_buf_idx w' = 0 /\
    tx_buf_overflow w' = false /\
    i2c_msg.xferred (itc_msg w') = 0 /\
    ops (bus w') =
      ops (bus w) ++
      [OpStart; OpShiftOut (sla_addr I2C_MSG_READ (itc_msg w));
       OpGetAck false; OpStop] /\
    scl_out (bus w') = true /\
    sda_out (bus w') = true /\
    tx_buf w' = tx_buf w /\
    rx_buf w' = rx_buf w.
Proof.
  intros Hovf Hnack Hrel.
  destruct (process_nack_on_address_run I2C_MSG_READ 1 w t Hnack Hrel)
    as (w1 & Hrun & Hops & Hx & Hscl & Hsda & Htx & Hrx & _).
  eexists. split.
  - unfold endTransmission, bind, gets, process_legacy.
    rewrite Hovf, Hrun. reflexivity.
  - cbn [bus with_tx_buf_overflow with_tx_buf_idx itc_msg tx_buf_idx
         tx_buf_overflow tx_buf rx_buf].
    repeat split; assumption.
Qed.

Lemma list_inserts_take_0 (bytes l : list Z) :
  (List.length bytes <= List.length l)%nat ->
  take (List.length bytes) (list_inserts 0 bytes l) = bytes.
Proof.
  intros Hlen. apply list_eq. intros j.
  destruct (Nat.lt_ge_cases j (List.length bytes)) as [Hj|Hj].
  - rewrite lookup_take_lt by lia.
    rewrite list_lookup_inserts by lia. f_equal. lia.
  - rewrite lookup_take_ge by lia. symmetry. now apply lookup_ge_None.
Qed.

(** Reading [n] bytes when exactly [n] are left returns them in order and
    leaves cursor and length at 0. *)
Lemma reads_all n : forall w,
  0 <= rx_buf_idx w ->
  rx_buf_len w = rx_buf_idx w + Z.of_nat n ->
  rx_buf_len w <= Z.of_nat (List.length (rx_buf w)) ->
  rx_buf_len w < 2 ^ 8 ->
  (0 < n)%nat ->
  reads n w =
  Ret (take n (drop (Z.to_nat (rx_buf_idx w)) (rx_buf w)))
      (with_rx_buf_len 0 (with_rx_buf_idx 0 w)).
Proof.
  induction n as [|n IH]; intros w Hidx Hlen Hbuf H8 Hn; [lia|].
  cbn [reads]. unfold bind at 1. rewrite read_eq.
  replace (rx_buf_idx w =? rx_buf_len w) with false by (symmetry; lia).
  replace (0 <=? rx_buf_idx w) with true by (symmetry; lia).
  destruct (rx_buf w !! Z.to_nat (rx_buf_idx w)) as [v|] eqn:Hv.
  2: { apply lookup_ge_None in Hv. lia. }
  rewrite (drop_S _ _ _ Hv). cbn [take].
  destruct n as [|n'].
  - replace (rx_buf_idx w =? rx_buf_len w - 1) with true by (symmetry; lia).
    cbn [reads]. unfold bind, ret. now rewrite take_0.
  - replace (rx_buf_idx w =? rx_buf_len w - 1) with false by (symmetry; lia).
    rewrite uint8_small by lia. unfold bind at 1.
    rewrite IH; cbn [rx_buf_idx rx_buf_len rx_buf with_rx_buf_idx]; try lia.
    unfold ret.
    replace (Z.to_nat (rx_buf_idx w + 1)) with (S (Z.to_nat (rx_buf_idx w)))
      by lia.
    reflexivity.
Qed.

(** X7. Request and consume: on a drained receive buffer, [requestFrom] of
    [count] bytes from a slave that acknowledges its address returns
    [min count capacity], and that many calls of [read] then return the
    bytes in the order they came off the wire (most significant bit first,
    eight data samples each) and leave the buffer drained again. *)
Theorem requestFrom_then_read I2C_TXRX_BUFFER_SIZE I2C_MSG_READ a count w t :
  let c := Z.min count I2C_TXRX_BUFFER_SIZE in
  let bytes :=
    received (sda_line (bus w)) (S (sda_samples (bus w))) (Z.to_nat c) in
  0 <= a <= 127 ->
  rx_buf_idx w = 0 ->
  rx_buf_len w = 0 ->
  0 < count ->
  0 < I2C_TXRX_BUFFER_SIZE < 2 ^ 8 ->
  I2C_TXRX_BUFFER_SIZE <= Z.of_nat (List.length (rx_buf w)) ->
  sda_line (bus w) (sda_samples (bus w)) = false ->
  release (10 + 9 * Z.to_nat c) (scl_line (bus w)) = Some t ->
  exists w' w'',
    requestFrom I2C_TXRX_BUFFER_SIZE I2C_MSG_READ a count w = Ret c w' /\
    available w' = c /\
    reads (Z.to_nat c) w' = Ret bytes w'' /\
    List.length bytes = Z.to_nat c /\
    available w'' = 0 /\
    rx_buf_idx w'' = 0 /\
    rx_buf_len w'' = 0 /\
    ops (bus w'') =
      ops (bus w) ++ address_ops (Z.lor (Z.shiftl a 1) 1) true ++
      read_ops bytes ++ [OpStop].
Proof.
  intros c bytes Ha Hidx Hlen Hcount Hsize Hbuf Hack Hrel.
  assert (Hc : 0 < c <= I2C_TXRX_BUFFER_SIZE) by (unfold c; lia).
  assert (Hu : uint16 c = c) by (apply uint16_small; lia).
  destruct w as [b m rxb rxi rxl txb txi txo].
  cbn [rx_buf_idx rx_buf_len rx_buf bus] in *. subst rxi rxl.
  set (m0 := i2c_msg.mk a I2C_MSG_READ c (i2c_msg.xferred m) (mkPtr RX 0)).
  set (w0 := mkWire b m0 rxb 0 0 txb txi txo).
  pose proof (process_read I2C_MSG_READ 1 w0 t) as Hproc.
  cbv zeta in Hproc.
  cbn [w0 m0 itc_msg i2c_msg.flags i2c_msg.length i2c_msg.data bus offset
       target array rx_buf] in Hproc.
  fold m0 bytes in Hproc.
  specialize (Hproc eq_refl Hack ltac:(lia)).
  assert (Hin : in_bounds (mkPtr RX 0) c w0) by (split; cbn; lia).
  specialize (Hproc Hin Hrel).
  assert (Hbytes : List.length bytes = Z.to_nat c) by apply received_length.
  assert (Hsla : sla_addr I2C_MSG_READ m0 = Z.lor (Z.shiftl a 1) 1).
  { rewrite sla_addr_encoding by exact Ha. cbn [m0 i2c_msg.addr
      i2c_msg.flags]. now rewrite Z.eqb_refl. }
  rewrite Hsla in Hproc.
  set (b1 := after b t (8 * Z.to_nat c + S (sda_samples b))
               (address_wave (i2c_delay b) (Z.lor (Z.shiftl a 1) 1) ++
                read_wave (i2c_delay b) (Z.to_nat c) ++
                final_wave (i2c_delay b) 1)
               (address_ops (Z.lor (Z.shiftl a 1) 1) true ++
                read_ops bytes ++ [final_op 1])) in *.
  set (w1 := mkWire b1 (i2c_msg.mk a 0 c c (mkPtr RX 0))
               (list_inserts 0 bytes rxb) 0 c txb txi txo).
  assert (Hreq :
    requestFrom I2C_TXRX_BUFFER_SIZE I2C_MSG_READ a count
      (mkWire b m rxb 0 0 txb txi txo) = Ret c w1).
  { unfold requestFrom, bind, update_msg, modify, gets, process_legacy.
    cbn [itc_msg with_itc_msg rx_buf_idx i2c_msg.with_addr
         i2c_msg.with_flags i2c_msg.with_length i2c_msg.with_data
         i2c_msg.addr i2c_msg.flags i2c_msg.length i2c_msg.xferred
         i2c_msg.data bus rx_buf rx_buf_len tx_buf tx_buf_idx
         tx_buf_overflow].
    replace (if count >? I2C_TXRX_BUFFER_SIZE
             then I2C_TXRX_BUFFER_SIZE else count) with c
      by (unfold c; destruct (Z.gtb_spec count I2C_TXRX_BUFFER_SIZE); lia).
    rewrite Hu.
    match goal with
    | |- context [process I2C_MSG_READ 1 ?x] => change x with w0
    end.
    rewrite Hproc.
    unfold id, transfer_state.
    cbn [w0 m0 itc_msg with_itc_msg i2c_msg.data target with_array
         with_rx_buf with_bus rx_buf_len with_rx_buf_len
         i2c_msg.with_xferred i2c_msg.xferred i2c_msg.with_flags
         i2c_msg.addr i2c_msg.flags i2c_msg.length array rx_buf offset bus
         rx_buf_idx tx_buf tx_buf_idx tx_buf_overflow Z.to_nat].
    rewrite Z.add_0_l, uint8_small by lia. reflexivity. }
  exists w1, (with_rx_buf_len 0 (with_rx_buf_idx 0 w1)). split; [exact Hreq|].
  split; [unfold available; cbn; rewrite Z.sub_0_r; apply uint8_small; lia|].
  split.
  - rewrite reads_all; cbn [w1 rx_buf_idx rx_buf_len rx_buf];
      rewrite ?length_inserts; try lia.
    rewrite <- Hbytes. change (Z.to_nat 0) with 0%nat. rewrite drop_0.
    now rewrite list_inserts_take_0 by lia.
  - repeat split; try assumption.
Qed.

(** X8. Requesting from an address nobody answers: [requestFrom] stops the
    bus and returns the available length it found, which it leaves as it
    is together with the read cursor and both buffers; the message flags
    are back at 0.  On a drained buffer the value returned is 0. *)
Theorem requestFrom_absent_device I2C_TXRX_BUFFER_SIZE I2C_MSG_READ a count
    w t :
  0 <= rx_buf_len w < 2 ^ 8 ->
  sda_line (bus w) (sda_samples (bus w)) = true ->
  release 10 (scl_line (bus w)) = Some t ->
  exists w',
    requestFrom I2C_TXRX_BUFFER_SIZE I2C_MSG_READ a count w =
      Ret (rx_buf_len w) w' /\
    rx_buf_len w' = rx_buf_len w /\
    rx_buf_idx w' = rx_buf_idx w /\
    rx_buf w' = rx_buf w /\
    tx_buf w' = tx_buf w /\
    i2c_msg.flags (itc_msg w') = 0 /\
    i2c_msg.xferred (itc_msg w') = 0 /\
    scl_out (bus w') = true /\
    sda_out (bus w') = true /\
    exists byte,
      ops (bus w') = ops (bus w) ++ [OpStart; OpShiftOut byte; OpGetAck false;
                                     OpStop].
Proof.
  intros Hlen Hnack Hrel.
  unfold requestFrom, bind, update_msg, modify, gets, process_legacy.
  match goal with
  | |- context [process I2C_MSG_READ 1 ?x] => set (w0 := x)
  end.
  destruct (process_nack_on_address_run I2C_MSG_READ 1 w0 t Hnack Hrel)
    as (w1 & Hrun & Hops & Hx & Hscl & Hsda & Htx & Hrx & Hidx & Hl & _).
  rewrite Hrun. unfold id.
  cbn [w0 rx_buf tx_buf rx_buf_idx rx_buf_len with_itc_msg bus itc_msg]
    in Hops, Htx, Hrx, Hidx, Hl.
  rewrite Hl, Hx, Z.add_0_r, uint8_small by exact Hlen.
  eexists. split; [reflexivity|].
  cbn [rx_buf_len rx_buf_idx rx_buf tx_buf bus itc_msg with_itc_msg
       with_rx_buf_len i2c_msg.flags i2c_msg.xferred i2c_msg.with_flags].
  repeat split; try assumption.
  eexists. exact Hops.
Qed.

Lemma skip_low_none tape :
  skip_low tape = None <-> Forall (fun s => s = false) tape.
Proof.
  induction tape as [|s tape IH]; cbn [skip_low].
  - split; [constructor | reflexivity].
  - destruct s.
    + split; [discriminate | intros H; inversion H; discriminate].
    + rewrite IH. split; [now constructor | intros H; now inversion H].
Qed.

Lemma skip_low_some tape t :
  skip_low tape = Some t ->
  exists lows, tape = lows ++ true :: t /\ Forall (fun s => s = false) lows.
Proof.
  revert t. induction tape as [|s tape IH]; intros t; cbn [skip_low];
    [discriminate|].
  destruct s.
  - intros [= <-]. now exists [].
  - intros H. apply IH in H as (lows & -> & Hlows).
    exists (false :: lows). split; [reflexivity | now constructor].
Qed.

(** X9. [begin] joins the bus: unless the slave holds the clock low for
    ever (then [begin] never returns), both pins are open-drain outputs,
    both lines are released high, the four buffer cursors and flags are
    reset, and the buffers and the message are as they were; the clock
    samples taken are the low ones up to the first high one. *)
Theorem begin_leaves_bus_idle self_addr w :
  match begin self_addr w with
  | Ret _ w' =>
      scl_out (bus w') = true /\ sda_out (bus w') = true /\
      scl_mode (bus w') = OUTPUT_OPEN_DRAIN /\
      sda_mode (bus w') = OUTPUT_OPEN_DRAIN /\
      tx_buf_idx w' = 0 /\ tx_buf_overflow w' = false /\
      rx_buf_idx w' = 0 /\ rx_buf_len w' = 0 /\
      tx_buf w' = tx_buf w /\ rx_buf w' = rx_buf w /\
      itc_msg w' = itc_msg w /\
      ops (bus w') = ops (bus w) /\
      exists lows,
        scl_line (bus w) = lows ++ true :: scl_line (bus w') /\
        Forall (fun s => s = false) lows
  | Hang => Forall (fun s => s = false) (scl_line (bus w))
  | Fault => False
  end.
Proof.
  rewrite begin_eq.
  destruct (skip_low (scl_line (bus w))) as [t|] eqn:Hskip.
  - cbv zeta. cbn [bus with_bus]. autorewrite with bus.
    repeat split; try reflexivity.
    + now rewrite app_nil_r.
    + now apply skip_low_some.
  - now apply skip_low_none.
Qed.

(** ** Bits on the wire *)

Lemma land_bit v k :
  0 <= k -> negb (Z.land v (Z.shiftl 1 k) =? 0) = Z.testbit v k.
Proof.
  intros Hk. rewrite Z.shiftl_1_l.
  destruct (Z.testbit v k) eqn:Hbit.
  - apply negb_true_iff, Z.eqb_neq. intros H0.
    assert (Hb : Z.testbit (Z.land v (2 ^ k)) k = true)
      by (rewrite Z.land_spec, Hbit, Z.pow2_bits_true; [reflexivity|lia]).
    rewrite H0, Z.bits_0 in Hb. discriminate.
  - apply negb_false_iff, Z.eqb_eq. apply Z.bits_inj'. intros n Hn.
    rewrite Z.land_spec, Z.bits_0, Z.pow2_bits_eqb by lia.
    destruct (Z.eqb_spec k n) as [->|]; [now rewrite Hbit|].
    apply andb_false_r.
Qed.

Lemma shift_out_wave_bits d v :
  shift_out_wave d v = flat_map (bit_wave d) (byte_bits v).
Proof.
  unfold shift_out_wave, byte_bits. cbn [data_bits map flat_map].
  rewrite !land_bit by lia. cbn [Z.add Z.sub Z.opp Z.pos_sub Pos.add
    Pos.succ Pos.pred_double Z.succ_double Z.pred_double Z.double].
  unfold bit_wave. rewrite <- !app_assoc, ?app_nil_r. reflexivity.
Qed.

(** X10. [i2c_shift_out] puts the low eight bits of its argument on the
    wire most significant bit first: for each bit the data line is driven
    to the bit while the clock is low, then the clock is pulsed; no data
    sample is taken, the clock is left low, and a receiver that samples at
    the rising edges reads exactly those eight bits.  It returns as soon as
    the slave has let the clock rise eight times. *)
Theorem shift_out_msb_first val b t :
  release 8 (scl_line b) = Some t ->
  exists b',
    i2c_shift_out val b = Ret tt b' /\
    wave b' = wave b ++ flat_map (bit_wave (i2c_delay b)) (byte_bits val) /\
    sda_levels (flat_map (bit_wave (i2c_delay b)) (byte_bits val)) =
      byte_bits val /\
    clocked_levels (sda_out b)
      (flat_map (bit_wave (i2c_delay b)) (byte_bits val)) = byte_bits val /\
    scl_out b' = false /\
    sda_out b' = Z.testbit val 0 /\
    sda_samples b' = sda_samples b /\
    scl_line b' = t.
Proof.
  intros Hrel. eexists. split.
  - rewrite i2c_shift_out_eq, Hrel. reflexivity.
  - autorewrite with bus. rewrite shift_out_wave_bits.
    repeat split; reflexivity.
Qed.

Lemma sample_bits_ext line line' n : forall k k' i data,
  (forall j, (j < n)%nat -> line (k + j)%nat = line' (k' + j)%nat) ->
  sample_bits line k n i data = sample_bits line' k' n i data.
Proof.
  induction n as [|n IH]; intros k k' i data Hext; [reflexivity|].
  cbn [sample_bits].
  assert (H0 : line k = line' k').
  { specialize (Hext 0%nat). rewrite !Nat.add_0_r in Hext. apply Hext. lia. }
  rewrite H0. apply IH. intros j Hj.
  rewrite !Nat.add_succ_l, <- !Nat.add_succ_r. apply Hext. lia.
Qed.

Lemma presents_at bits k j : presents bits k (k + j) = nth j bits true.
Proof.
  unfold presents. destruct (Nat.ltb_spec (k + j) k) as [Hlt|Hge]; [lia|].
  f_equal. lia.
Qed.

Lemma byte_bits_mod v : byte_bits (v mod 2 ^ 8) = byte_bits v.
Proof.
  unfold byte_bits. cbn [map]. now rewrite !Z.mod_pow2_bits_low by lia.
Qed.

Lemma bytes_checked :
  forallb (fun u => sampled_byte (presents (byte_bits u) 0) 0 =? u)
          (map Z.of_nat (seq 0 256)) = true.
Proof. vm_compute. reflexivity. Qed.

Lemma sampled_byte_ext line line' k k' :
  (forall j, (j < 8)%nat -> line (k + j)%nat = line' (k' + j)%nat) ->
  sampled_byte line k = sampled_byte line' k'.
Proof. apply sample_bits_ext. Qed.

Lemma sampled_byte_of_bits v k :
  sampled_byte (presents (byte_bits v) k) k = v mod 2 ^ 8.
Proof.
  rewrite <- byte_bits_mod.
  assert (Hu : 0 <= v mod 2 ^ 8 < 2 ^ 8) by (apply Z.mod_pos_bound; lia).
  set (u := v mod 2 ^ 8) in *. clearbody u.
  rewrite (sampled_byte_ext _ (presents (byte_bits u) 0) k 0%nat)
    by (intros j _; now rewrite !presents_at).
  pose proof bytes_checked as Hall. rewrite forallb_forall in Hall.
  assert (Hin : In u (map Z.of_nat (seq 0 256))).
  { apply in_map_iff. exists (Z.to_nat u).
    split; [lia | apply in_seq; lia]. }
  specialize (Hall u Hin). cbv beta in Hall. now apply Z.eqb_eq in Hall.
Qed.

Lemma sample_bits_range line n : forall k i data,
  0 <= data < 2 ^ 8 ->
  0 <= sample_bits line k n i data < 2 ^ 8.
Proof.
  induction n as [|n IH]; intros k i data Hdata; [exact Hdata|].
  cbn [sample_bits]. apply IH. unfold uint8. apply Z.mod_pos_bound. lia.
Qed.

(** X11. [i2c_shift_in] reads a byte most significant bit first, and it
    reads back what [i2c_shift_out] writes: when the slave puts the eight
    bits of [v] on the data line, one per sample, the value returned is
    [v mod 256]; whatever the slave does the value is a byte.  The data
    line is released before the first sample, eight samples are taken, and
    the clock is left low. *)
Theorem shift_in_reads_what_shift_out_writes v b t :
  sda_line b = presents (byte_bits v) (sda_samples b) ->
  release 8 (scl_line b) = Some t ->
  exists b',
    i2c_shift_in b = Ret (v mod 2 ^ 8) b' /\
    clocked_levels (sda_out b) (shift_out_wave (i2c_delay b) v) =
      byte_bits v /\
    sda_samples b' = (8 + sda_samples b)%nat /\
    sda_out b' = true /\
    scl_out b' = false /\
    scl_line b' = t /\
    forall line k, 0 <= sampled_byte line k < 2 ^ 8.
Proof.
  intros Hline Hrel. eexists. split.
  - rewrite i2c_shift_in_eq, Hrel. cbv zeta.
    rewrite Hline, sampled_byte_of_bits. reflexivity.
  - autorewrite with bus. rewrite shift_out_wave_bits.
    repeat split; try reflexivity;
      apply sample_bits_range; lia.
Qed.

(** X12. Clock stretching: [set_scl(HIGH)] waits for the slave with no
    limit.  It returns once a sample of the clock reads high, having taken
    the low samples before it and that one, with the latch high; it never
    returns exactly when every sample left is low.  [set_scl(LOW)] never
    samples the clock and always returns. *)
Theorem set_scl_waits_for_the_slave b :
  match set_scl HIGH b with
  | Ret _ b' =>
      scl_out b' = true /\
      wave b' = wave b ++ [Delay (i2c_delay b); Drive SCL true] /\
      exists lows,
        scl_line b = lows ++ true :: scl_line b' /\
        Forall (fun s => s = false) lows
  | Hang => Forall (fun s => s = false) (scl_line b)
  | Fault => False
  end /\
  exists b',
    set_scl LOW b = Ret tt b' /\
    scl_out b' = false /\
    scl_line b' = scl_line b /\
    wave b' = wave b ++ [Delay (i2c_delay b); Drive SCL false].
Proof.
  split.
  - rewrite set_scl_high_eq.
    destruct (skip_low (scl_line b)) as [t|] eqn:Hskip.
    + autorewrite with bus. repeat split. now apply skip_low_some.
    + now apply skip_low_none.
  - eexists. rewrite set_scl_low_eq. split; [reflexivity|].
    autorewrite with bus. repeat split.
Qed.

(** ** The trace of a run *)

Lemma rendering_app d o1 o2 :
  rendering d (o1 ++ o2) = rendering d o1 ++ rendering d o2.
Proof. apply flat_map_app. Qed.

Lemma traced_here w b x arr : traced w b (transfer_state w b x arr) [] x arr.
Proof. exists (scl_line b), (sda_samples b). now rewrite after_id. Qed.

Lemma traced_after w b t1 s1 o1 w' o2 x arr :
  traced w (after b t1 s1 (rendering (i2c_delay b) o1) o1) w' o2 x arr ->
  traced w b w' (o1 ++ o2) x arr.
Proof.
  intros (t & s & ->). exists t, s.
  autorewrite with bus. now rewrite rendering_app.
Qed.

Lemma uint16_succ x n :
  uint16 (uint16 (x + 1) + Z.of_nat n) = uint16 (x + Z.of_nat (S n)).
Proof.
  unfold uint16. rewrite Zplus_mod_idemp_l. f_equal. lia.
Qed.

Lemma uint16_range x : 0 <= uint16 x < 2 ^ 16.
Proof. unfold uint16. apply Z.mod_pos_bound. lia. Qed.

(** A receive loop that returns has shifted in some number of bytes, with
    an ACK after each but the last and a NACK after the last. *)
Lemma recv_loop_trace fuel : forall w b x arr,
  0 <= x < 2 ^ 16 ->
  match recv_loop fuel (transfer_state w b x arr) with
  | Ret _ w' =>
      exists n arr',
        traced w b w'
          (read_ops (received (sda_line b) (sda_samples b) n))
          (uint16 (x + Z.of_nat n)) arr' /\
        ((x <? i2c_msg.length (itc_msg w)) = false -> n = 0%nat) /\
        ((x <? i2c_msg.length (itc_msg w)) = true -> (0 < n)%nat)
  | _ => True
  end.
Proof.
  induction fuel as [|fuel IH]; intros w b x arr Hx; simpl recv_loop;
    [exact I|].
  unfold bind. repeat wire_step.
  destruct (x <? i2c_msg.length (itc_msg w)) eqn:Hlt; repeat wire_step.
  2: { exists 0%nat, arr. rewrite Z.add_0_r, uint16_small by exact Hx.
       split; [apply traced_here | split; [reflexivity | discriminate]]. }
  rewrite i2c_shift_in_eq.
  destruct (release 8 (scl_line b)) as [t8|]; [|exact I].
  repeat wire_step. destruct (_ && _); [|exact I]. repeat wire_step.
  set (v := sampled_byte (sda_line b) (sda_samples b)).
  destruct (uint16 (x + 1) <? i2c_msg.length (itc_msg w)) eqn:Hnext;
    repeat wire_step;
    [rewrite i2c_send_ack_eq | rewrite i2c_send_nack_eq];
    autorewrite with bus; (destruct (release 1 t8) as [t9|]; [|exact I]);
    repeat wire_step;
    match goal with
    | |- context [recv_loop fuel (transfer_state w ?b' ?x' ?arr')] =>
        specialize (IH w b' x' arr' (uint16_range _));
        destruct (recv_loop fuel (transfer_state w b' x' arr'));
        try exact I;
        destruct IH as (n & arr1 & Htr & Hzero & Hpos)
    end;
    autorewrite with bus in Htr; rewrite Hnext in Hzero, Hpos;
    exists (S n), arr1; rewrite <- uint16_succ;
    (split; [|split; [discriminate | lia]]).
  - specialize (Hpos eq_refl). destruct n as [|n]; [lia|].
    change (shift_in_wave (i2c_delay b) ++ send_ack_wave (i2c_delay b))
      with (rendering (i2c_delay b) [OpShiftIn v; OpSendAck]) in Htr.
    apply traced_after in Htr.
    replace (8 + sda_samples b)%nat with (sda_samples b + 8)%nat in Htr
      by lia.
    exact Htr.
  - specialize (Hzero eq_refl). subst n.
    change (shift_in_wave (i2c_delay b) ++ send_nack_wave (i2c_delay b))
      with (rendering (i2c_delay b) [OpShiftIn v; OpSendNack]) in Htr.
    apply traced_after in Htr. exact Htr.
Qed.

(** A send loop that returns has written some bytes, all acknowledged, and
    either run to its end or met a byte that was not acknowledged and
    stopped the bus; the array is as it was. *)
Lemma send_loop_trace fuel : forall i w b x arr,
  0 <= x < 2 ^ 16 ->
  match send_loop fuel i (transfer_state w b x arr) with
  | Ret r w' =>
      exists bytes,
        let x' := uint16 (x + Z.of_nat (List.length bytes)) in
        (r = None /\ traced w b w' (write_ops bytes) x' arr) \/
        (exists v,
           r = Some I2C_NACK_DATA /\
           traced w b w'
             (write_ops bytes ++ [OpShiftOut v; OpGetAck false; OpStop])
             x' arr)
  | _ => True
  end.
Proof.
  induction fuel as [|fuel IH]; intros i w b x arr Hx; simpl send_loop;
    [exact I|].
  unfold bind. repeat wire_step.
  destruct (i <? i2c_msg.length (itc_msg w)); repeat wire_step.
  2: { exists []. left. cbn [List.length Z.of_nat].
       rewrite Z.add_0_r, uint16_small by exact Hx.
       split; [reflexivity | apply traced_here]. }
  destruct (0 <=? _); [|exact I]. destruct (arr !! _) as [v|]; [|exact I].
  repeat wire_step. rewrite i2c_shift_out_eq.
  destruct (release 8 (scl_line b)) as [t8|]; [|exact I].
  repeat wire_step. rewrite i2c_get_ack_eq. autorewrite with bus.
  destruct (release 1 t8) as [t9|]; [|exact I]. repeat wire_step.
  destruct (sda_line b (sda_samples b)); repeat wire_step.
  - rewrite i2c_stop_eq. autorewrite with bus.
    destruct (release 1 t9) as [t10|]; [|exact I]. repeat wire_step.
    unfold ret. exists []. right. exists v. split; [reflexivity|].
    cbn [List.length Z.of_nat write_ops app].
    rewrite Z.add_0_r, uint16_small by exact Hx.
    exists t10, (S (sda_samples b)). reflexivity.
  - match goal with
    | |- context [send_loop fuel ?i' (transfer_state w ?b' ?x' ?arr')] =>
        specialize (IH i' w b' x' arr' (uint16_range _));
        destruct (send_loop fuel i' (transfer_state w b' x' arr'));
        try exact I;
        destruct IH as (bytes & IH)
    end.
    cbv zeta in IH. rewrite uint16_succ in IH.
    exists (v :: bytes). cbv zeta. cbn [List.length write_ops].
    change (shift_out_wave (i2c_delay b) v ++ get_ack_wave (i2c_delay b))
      with (rendering (i2c_delay b) [OpShiftOut v; OpGetAck true]) in IH.
    destruct IH as [(-> & Htr)|(v' & -> & Htr)]; apply traced_after in Htr.
    + left. split; [reflexivity | exact Htr].
    + right. exists v'. split; [reflexivity | exact Htr].
Qed.

Lemma process_trace I2C_MSG_READ stop w :
  let a := sla_addr I2C_MSG_READ (itc_msg w) in
  let is_read := i2c_msg.flags (itc_msg w) =? I2C_MSG_READ in
  match process I2C_MSG_READ stop w with
  | Ret st w' =>
      exists bytes o arr',
        run_ops a stop is_read st bytes o /\
        traced w (bus w) w' o (uint16 (Z.of_nat (List.length bytes))) arr' /\
        (is_read = false ->
         arr' = array (target (i2c_msg.data (itc_msg w))) w)
  | _ => True
  end.
Proof.
  intros a is_read. unfold process. rewrite address_phase.
  destruct (release 9 (scl_line (bus w))) as [t9|]; [|exact I].
  unfold addressed. fold a.
  change (address_wave (i2c_delay (bus w)) a)
    with (rendering (i2c_delay (bus w)) (address_ops a true)).
  change (rendering (i2c_delay (bus w)) (address_ops a true))
    with (rendering (i2c_delay (bus w))
            (address_ops a (negb (sda_line (bus w) (sda_samples (bus w)))))).
  destruct (sda_line (bus w) (sda_samples (bus w))); cbn [negb].
  - unfold bind. repeat wire_step. rewrite i2c_stop_eq.
    autorewrite with bus. destruct (release 1 t9) as [t10|]; [|exact I].
    repeat wire_step. unfold ret.
    exists [], (address_ops a false ++ [OpStop]). eexists.
    split; [constructor|]. split; [|reflexivity].
    exists t10, (S (sda_samples (bus w))).
    rewrite rendering_app. reflexivity.
  - unfold bind at 1. repeat wire_step. fold is_read.
    assert (Hfinal : forall w1 bytes o arr1 st,
      traced w
        (after (bus w) t9 (S (sda_samples (bus w)))
           (rendering (i2c_delay (bus w)) (address_ops a true))
           (address_ops a true))
        w1 o (uint16 (Z.of_nat (List.length bytes))) arr1 ->
      run_ops a stop is_read st bytes
        (address_ops a true ++ o ++ [final_op stop]) ->
      (is_read = false ->
       arr1 = array (target (i2c_msg.data (itc_msg w))) w) ->
      match
        ((if stop =? 1 then on_bus i2c_stop else on_bus i2c_repeated_start) ;;
         ret st) w1
      with
      | Ret st' w' =>
          exists bytes' o' arr',
            run_ops a stop is_read st' bytes' o' /\
            traced w (bus w) w' o'
              (uint16 (Z.of_nat (List.length bytes'))) arr' /\
            (is_read = false ->
             arr' = array (target (i2c_msg.data (itc_msg w))) w)
      | _ => True
      end).
    { intros w1 bytes o arr1 st (t1 & s1 & ->) Hrun Harr.
      unfold bind, final_op in *.
      destruct (stop =? 1); repeat wire_step;
        [rewrite i2c_stop_eq | rewrite i2c_repeated_start_eq];
        autorewrite with bus;
        (destruct (release 1 t1) as [t2|]; [|exact I]);
        repeat wire_step; unfold ret;
        exists bytes; eexists; exists arr1; (split; [exact Hrun|]);
        (split; [|exact Harr]); do 2 eexists;
        rewrite !rendering_app, <- !app_assoc; cbn [rendering flat_map];
        rewrite app_nil_r; reflexivity. }
    destruct is_read eqn:His.
    + unfold bind at 1. unfold bind at 1. repeat wire_step.
      unfold bind at 1.
      match goal with
      | |- context [recv_loop ?f (transfer_state w ?b' ?x' ?arr')] =>
          pose proof (recv_loop_trace f w b' x' arr' ltac:(lia)) as Hloop;
          destruct (recv_loop f (transfer_state w b' x' arr'));
          try exact I;
          destruct Hloop as (n & arr1 & Htr & _ & _)
      end.
      unfold ret at 1. cbn beta iota. autorewrite with bus in Htr.
      rewrite Z.add_0_l in Htr.
      rewrite <- (received_length (sda_line (bus w))
                    (S (sda_samples (bus w))) n) in Htr at 2.
      apply (Hfinal _ _ _ _ I2C_OK Htr); [now constructor | discriminate].
    + unfold bind at 1. unfold bind at 1. repeat wire_step.
      match goal with
      | |- context [send_loop ?f ?i (transfer_state w ?b' ?x' ?arr')] =>
          pose proof (send_loop_trace f i w b' x' arr' ltac:(lia)) as Hloop;
          destruct (send_loop f i (transfer_state w b' x' arr'))
            as [r w1| |];
          try exact I;
          destruct Hloop as (bytes & Hloop)
      end.
      cbv zeta in Hloop. rewrite Z.add_0_l in Hloop.
      destruct Hloop as [(-> & Htr)|(v & -> & Htr)]; cbn beta iota.
      * apply (Hfinal _ _ _ _ I2C_OK Htr); [now constructor | reflexivity].
      * unfold ret. apply traced_after in Htr.
        exists bytes. do 2 eexists. split; [|split; [exact Htr | reflexivity]].
        now constructor.
Qed.

(** What the bus has seen in a run of [process] that returns. *)
Lemma process_ops_wave I2C_MSG_READ stop w st w' :
  process I2C_MSG_READ stop w = Ret st w' ->
  exists bytes o,
    run_ops (sla_addr I2C_MSG_READ (itc_msg w)) stop
      (i2c_msg.flags (itc_msg w) =? I2C_MSG_READ) st bytes o /\
    ops (bus w') = ops (bus w) ++ o /\
    wave (bus w') = wave (bus w) ++ rendering (i2c_delay (bus w)) o /\
    i2c_delay (bus w') = i2c_delay (bus w).
Proof.
  intros Hrun.
  pose proof (process_trace I2C_MSG_READ stop w) as Htrace.
  cbv zeta in Htrace. rewrite Hrun in Htrace.
  destruct Htrace as (bytes & o & arr' & Hops & (t & s & ->) & _).
  exists bytes, o. split; [exact Hops|].
  rewrite bus_transfer_state. autorewrite with bus.
  repeat split; reflexivity.
Qed.

(** X13. The grammar of a run.  Whatever the slave does, a run of
    [process] that returns is one of four: (address not acknowledged) start,
    address, NACK, stop, status [I2C_NACK_ADDR]; (read) start, address, ACK,
    the bytes shifted in with an ACK after each but the last and a NACK
    after the last, then stop or repeated start, status [I2C_OK]; (write)
    start, address, ACK, the bytes shifted out, each acknowledged, then stop
    or repeated start, status [I2C_OK]; (write cut short) the same up to a
    byte that is not acknowledged, then stop, status [I2C_NACK_DATA].  The
    line events are those of these primitives and no others, the
    transferred count is the number of bytes (modulo 2^16), the status is
    never [I2C_DATA_TOO_LONG], a write leaves both buffers as they are, and
    the cursors, the flags and the message but for its count are not
    touched. *)
Theorem process_run_grammar I2C_MSG_READ stop w st w' :
  process I2C_MSG_READ stop w = Ret st w' ->
  let a := sla_addr I2C_MSG_READ (itc_msg w) in
  let is_read := i2c_msg.flags (itc_msg w) =? I2C_MSG_READ in
  exists bytes o,
    run_ops a stop is_read st bytes o /\
    ops (bus w') = ops (bus w) ++ o /\
    wave (bus w') = wave (bus w) ++ rendering (i2c_delay (bus w)) o /\
    itc_msg w' =
      i2c_msg.with_xferred (Z.of_nat (List.length bytes) mod 2 ^ 16)
        (itc_msg w) /\
    st <> I2C_DATA_TOO_LONG /\
    (is_read = false -> tx_buf w' = tx_buf w /\ rx_buf w' = rx_buf w) /\
    rx_buf_idx w' = rx_buf_idx w /\
    rx_buf_len w' = rx_buf_len w /\
    tx_buf_idx w' = tx_buf_idx w /\
    tx_buf_overflow w' = tx_buf_overflow w /\
    i2c_delay (bus w') = i2c_delay (bus w).
Proof.
  intros Hrun a is_read.
  pose proof (process_trace I2C_MSG_READ stop w) as Htrace.
  cbv zeta in Htrace. rewrite Hrun in Htrace.
  destruct Htrace as (bytes & o & arr' & Hops & (t & s & ->) & Harr).
  exists bytes, o. split; [exact Hops|].
  rewrite bus_transfer_state, itc_msg_transfer_state. autorewrite with bus.
  pose proof (cursors_transfer_state w
    (after (bus w) t s (rendering (i2c_delay (bus w)) o) o)
    (uint16 (Z.of_nat (List.length bytes))) arr') as (H1 & H2 & H3 & H4).
  repeat split; try reflexivity; try assumption.
  - intros ->. inversion Hops.
  - fold is_read in Harr. rewrite (Harr H). apply transfer_state_buffers.
  - fold is_read in Harr. rewrite (Harr H). apply transfer_state_buffers.
Qed.

Lemma paced_app d : forall l1 l2,
  paced d l1 = true -> paced d (l1 ++ l2) = paced d l2.
Proof.
  fix IH 1. intros [|[d'|p v] [|[d''|p' v'] l1]] l2; cbn [paced app];
    try discriminate; try reflexivity.
  intros H. apply andb_true_iff in H as [H1 H2]. rewrite H1. cbn [andb].
  apply IH. exact H2.
Qed.

Lemma paced_render d o : paced d (render d o) = true.
Proof.
  destruct o; cbn; rewrite ?Z.eqb_refl; reflexivity.
Qed.

Lemma paced_rendering d o : paced d (rendering d o) = true.
Proof.
  induction o as [|op o IH]; [reflexivity|].
  cbn [rendering flat_map]. rewrite paced_app by apply paced_render.
  exact IH.
Qed.

(** X14. Pacing: in every run of [process] that returns, each level change
    on either line comes right after a delay of [i2c_delay] loops, and no
    delay is ever spent after the last change: the line events of the run
    are pairs of a delay and a drive. *)
Theorem process_is_paced I2C_MSG_READ stop w st w' :
  process I2C_MSG_READ stop w = Ret st w' ->
  exists l,
    wave (bus w') = wave (bus w) ++ l /\
    paced (i2c_delay (bus w)) l = true.
Proof.
  intros Hrun.
  destruct (process_ops_wave _ _ _ _ _ Hrun)
    as (bytes & o & _ & _ & Hwave & _).
  eexists. split; [exact Hwave | apply paced_rendering].
Qed.

Lemma moves_while_high_app l1 : forall scl sda l2,
  moves_while_high scl sda (l1 ++ l2) =
  moves_while_high scl sda l1 ++
  moves_while_high (latch SCL scl l1) (latch SDA sda l1) l2.
Proof.
  induction l1 as [|e l1 IH]; intros scl sda l2; [reflexivity|].
  destruct e as [d|[] v]; cbn [app moves_while_high]; rewrite IH;
    rewrite <- ?app_assoc; reflexivity.
Qed.

Lemma data_op_quiet d o sda :
  data_op o = true ->
  moves_while_high false sda (render d o) = [] /\
  latch SCL false (render d o) = false.
Proof. destruct o; try discriminate; intros _; split; reflexivity. Qed.

Lemma data_ops_quiet d o : forall sda,
  forallb data_op o = true ->
  moves_while_high false sda (rendering d o) = [] /\
  latch SCL false (rendering d o) = false.
Proof.
  induction o as [|op o IH]; intros sda Hall; [now split|].
  cbn [forallb] in Hall. apply andb_true_iff in Hall as [Hop Hall].
  cbn [rendering flat_map]. fold (rendering d o).
  rewrite moves_while_high_app, latch_app.
  destruct (data_op_quiet d op sda Hop) as [-> ->].
  now apply IH.
Qed.

Lemma read_ops_data bytes : forallb data_op (read_ops bytes) = true.
Proof.
  induction bytes as [|v bytes IH]; [reflexivity|].
  cbn [read_ops forallb data_op andb]. now destruct bytes.
Qed.

Lemma write_ops_data bytes : forallb data_op (write_ops bytes) = true.
Proof. induction bytes as [|v bytes IH]; [reflexivity | exact IH]. Qed.

(** The data phase between the start condition and the closing condition
    never moves the data line while the clock is high. *)
Lemma run_ops_moves a stop is_read st bytes o d sda :
  run_ops a stop is_read st bytes o ->
  exists closing,
    moves_while_high true sda (rendering d o) =
      (if sda then [false] else []) ++ [closing] /\
    (closing = true /\ List.last o OpStart = OpStop \/
     closing = false /\ List.last o OpStart = OpRepeatedStart /\
     st = I2C_OK /\ stop <> 1).
Proof.
  assert (Hmid : forall mid ack closing_op sda0,
    forallb data_op mid = true ->
    moves_while_high true sda0
      (rendering d (address_ops a ack ++ mid ++ [closing_op])) =
    (if sda0 then [false] else []) ++
    moves_while_high false
      (latch SDA sda0 (rendering d (address_ops a ack ++ mid)))
      (render d closing_op)).
  { intros mid ack closing_op sda0 Hmid.
    rewrite app_assoc, rendering_app, moves_while_high_app.
    replace (rendering d [closing_op]) with (render d closing_op)
      by (unfold rendering; cbn [flat_map]; now rewrite app_nil_r).
    assert (Hquiet :
      moves_while_high true sda0 (rendering d (address_ops a ack ++ mid)) =
        (if sda0 then [false] else []) /\
      latch SCL true (rendering d (address_ops a ack ++ mid)) = false).
    { unfold address_ops.
      change ([OpStart; OpShiftOut a; OpGetAck ack] ++ mid)
        with ([OpStart] ++ ([OpShiftOut a; OpGetAck ack] ++ mid)).
      rewrite rendering_app, moves_while_high_app, latch_app.
      assert (Hall : forallb data_op ([OpShiftOut a; OpGetAck ack] ++ mid)
                     = true) by exact Hmid.
      change (latch SCL true (rendering d [OpStart])) with false.
      destruct (data_ops_quiet d _ (latch SDA sda0 (rendering d [OpStart]))
                  Hall) as [-> ->].
      rewrite app_nil_r. split; [now destruct sda0 | reflexivity]. }
    destruct Hquiet as [-> ->]. reflexivity. }
  intros Hrun. destruct Hrun as [|bytes His|bytes His|bytes v His].
  - exists true. change (address_ops a false ++ [OpStop])
      with (address_ops a false ++ [] ++ [OpStop]).
    rewrite Hmid by reflexivity. split; [reflexivity | now left].
  - rewrite Hmid by apply read_ops_data.
    rewrite app_assoc, last_last. unfold final_op.
    destruct (Z.eqb_spec stop 1) as [Hs|Hs].
    + exists true. split; [reflexivity | now left].
    + exists false. split; [reflexivity | right; now repeat split].
  - rewrite Hmid by apply write_ops_data.
    rewrite app_assoc, last_last. unfold final_op.
    destruct (Z.eqb_spec stop 1) as [Hs|Hs].
    + exists true. split; [reflexivity | now left].
    + exists false. split; [reflexivity | right; now repeat split].
  - exists true.
    change (write_ops bytes ++ [OpShiftOut v; OpGetAck false; OpStop])
      with (write_ops bytes ++ [OpShiftOut v; OpGetAck false] ++ [OpStop]).
    rewrite (app_assoc (write_ops bytes)).
    rewrite Hmid.
    + split; [reflexivity|]. left. split; [reflexivity|].
      now rewrite !app_assoc, last_last.
    + rewrite forallb_app, write_ops_data. reflexivity.
Qed.

Lemma list_last_app {A} (l1 l2 : list A) d :
  l2 <> [] -> List.last (l1 ++ l2) d = List.last l2 d.
Proof.
  intros Hne. induction l1 as [|x l1 IH]; [reflexivity|].
  cbn [app]. rewrite <- IH. cbn [List.last].
  destruct (l1 ++ l2) eqn:E; [|reflexivity].
  apply app_eq_nil in E as [_ ->]. contradiction.
Qed.

(** X15. Data is stable while the clock is high.  In a run of [process]
    that starts with the clock released, the data line moves while the
    clock is high only to make the conditions that frame the transfer: the
    fall of the start condition (none if the line is already low, as after
    a repeated start) and, last of all, the rise of the stop condition or
    the fall of the repeated start.  Address, data and acknowledge bits
    change only while the clock is low. *)
Theorem process_moves_data_while_clock_low I2C_MSG_READ stop w st w' :
  scl_out (bus w) = true ->
  process I2C_MSG_READ stop w = Ret st w' ->
  exists l closing,
    wave (bus w') = wave (bus w) ++ l /\
    moves_while_high true (sda_out (bus w)) l =
      (if sda_out (bus w) then [false] else []) ++ [closing] /\
    (closing = true /\ List.last (ops (bus w')) OpStart = OpStop \/
     closing = false /\ List.last (ops (bus w')) OpStart = OpRepeatedStart /\
     st = I2C_OK /\ stop <> 1).
Proof.
  intros Hscl Hrun.
  destruct (process_ops_wave _ _ _ _ _ Hrun)
    as (bytes & o & Hops & Ho & Hwave & _).
  destruct (run_ops_moves _ _ _ _ _ _ (i2c_delay (bus w))
              (sda_out (bus w)) Hops) as (closing & Hmoves & Hclosing).
  exists (rendering (i2c_delay (bus w)) o), closing.
  split; [exact Hwave|]. split; [exact Hmoves|].
  assert (Hne : o <> []) by (inversion Hops; now destruct bytes).
  rewrite Ho. rewrite list_last_app by exact Hne. exact Hclosing.
Qed.

(** ** The transfer comes back *)

Lemma release_prefix n k tape t :
  release n tape = Some t -> (k <= n)%nat ->
  exists t', release k tape = Some t'.
Proof.
  intros H Hle. replace n with (k + (n - k))%nat in H by lia.
  apply release_split in H as (t1 & H1 & _). now exists t1.
Qed.

(** Either the slave acknowledges [n] times in a row, or there is a first
    time it does not. *)
Lemma first_nack line s n :
  acks line s n \/
  exists k, (k < n)%nat /\ acks line s k /\ line (s + k)%nat = true.
Proof.
  induction n as [|n IH].
  - left. intros j Hj. lia.
  - destruct IH as [Hall | (k & Hk & Hacks & Hn)].
    + destruct (line (s + n)%nat) eqn:E.
      * right. exists n. repeat split; [lia | exact Hall | exact E].
      * left. intros j Hj. destruct (Nat.eq_dec j n) as [->|];
          [exact E | apply Hall; lia].
    + right. exists k. repeat split; [lia | exact Hacks | exact Hn].
Qed.

(** X16. [process] comes back.  When the message lies inside its buffer
    (and, for a write, is no longer than the 8-bit loop counter can count)
    and the slave lets the clock rise for the 10 + 9 * length pulses of a
    full transfer, [process] returns a status, whatever the slave answers
    on the data line: it neither waits for ever nor leaves the buffer. *)
Theorem process_returns I2C_MSG_READ stop w t :
  0 <= i2c_msg.length (itc_msg w) < 2 ^ 16 ->
  (i2c_msg.flags (itc_msg w) <> I2C_MSG_READ ->
   i2c_msg.length (itc_msg w) <= 255) ->
  in_bounds (i2c_msg.data (itc_msg w)) (i2c_msg.length (itc_msg w)) w ->
  release (10 + 9 * Z.to_nat (i2c_msg.length (itc_msg w)))
    (scl_line (bus w)) = Some t ->
  exists st w', process I2C_MSG_READ stop w = Ret st w'.
Proof.
  intros Hlen Hshort Hin Hrel.
  destruct (sda_line (bus w) (sda_samples (bus w))) eqn:Haddr.
  - destruct (release_prefix _ 10 _ _ Hrel ltac:(lia)) as [t' Ht'].
    eexists _, _. apply (process_nack_addr I2C_MSG_READ stop w t' Haddr Ht').
  - destruct (Z.eq_dec (i2c_msg.flags (itc_msg w)) I2C_MSG_READ)
      as [Hflags|Hflags].
    + eexists _, _.
      apply (process_read I2C_MSG_READ stop w t Hflags Haddr Hlen Hin Hrel).
    + specialize (Hshort Hflags).
      destruct (first_nack (sda_line (bus w)) (sda_samples (bus w))
                  (S (Z.to_nat (i2c_msg.length (itc_msg w)))))
        as [Hacks | (k & Hk & Hacks & Hnack)].
      * eexists _, _.
        apply (process_write I2C_MSG_READ stop w t Hflags Hacks
                 ltac:(lia) Hin Hrel).
      * destruct k as [|k].
        { rewrite Nat.add_0_r in Hnack. congruence. }
        destruct (release_prefix _ (9 * k + 19) _ _ Hrel ltac:(lia))
          as [t' Ht'].
        destruct Hin as [Hoff Hfit].
        destruct (lookup_lt_is_Some_2
                    (array (target (i2c_msg.data (itc_msg w))) w)
                    (Z.to_nat (offset (i2c_msg.data (itc_msg w))
                               + Z.of_nat k)) ltac:(lia)) as [v Hv].
        eexists _, _.
        apply (process_write_nack I2C_MSG_READ stop w t' k v Hflags
                 ltac:(lia) ltac:(lia) Hoff Hv Hacks Hnack Ht').
Qed.

(** ** Pacing after [setClock] *)

Lemma setClock_eq f w :
  setClock f w =
  Ret tt
    (with_bus
       (with_i2c_delay (if f =? 400000 then SOFT_FAST else SOFT_STANDARD)
          (bus w)) w).
Proof. reflexivity. Qed.

(** X17. [setClock] knows two speeds.  A transfer run after
    [setClock(f)] is paced by [SOFT_FAST] when [f] is 400000 and by
    [SOFT_STANDARD] for every other value of [f], faster ones included;
    [setClock] itself drives no line. *)
Theorem setClock_paces_the_next_run I2C_MSG_READ f stop w st w' :
  (setClock f ;; process I2C_MSG_READ stop) w = Ret st w' ->
  let d := if f =? 400000 then SOFT_FAST else SOFT_STANDARD in
  i2c_delay (bus w') = d /\
  exists l,
    l <> [] /\
    wave (bus w') = wave (bus w) ++ l /\
    paced d l = true.
Proof.
  intros Hrun d.
  rewrite (bind_Ret _ _ _ _ _ (setClock_eq f w)) in Hrun.
  destruct (process_ops_wave _ _ _ _ _ Hrun)
    as (bytes & o & Hops & _ & Hwave & Hdelay).
  cbn [bus with_bus] in Hwave, Hdelay.
  change (wave (bus w') = wave (bus w) ++ rendering d o) in Hwave.
  change (i2c_delay (bus w') = d) in Hdelay.
  split; [exact Hdelay|].
  exists (rendering d o). split; [|split].
  - clear Hrun Hwave Hdelay.
    destruct Hops; unfold address_ops, rendering;
      cbn [app flat_map render start_wave sda_to]; discriminate.
  - exact Hwave.
  - apply paced_rendering.
Qed.

(** * Concrete runs *)

Lemma process_leaves_clock_high_witness :
  exists st w',
    process bench_read 0 (three_staged (prompt 40) (fun _ => false)) =
      Ret st w' /\
    scl_out (bus w') = true.
Proof.
  destruct (process bench_read 0 (three_staged (prompt 40) (fun _ => false)))
    as [st w'| |] eqn:Hrun.
  - exists st, w'. split; [reflexivity|].
    apply (process_leaves_clock_high bench_read 0 _ st w' Hrun).
  - vm_compute in Hrun. discriminate.
  - vm_compute in Hrun. discriminate.
Defined.

Lemma process_nack_on_address_witness :
  exists w',
    process bench_read 1 (three_staged (prompt 10) (fun _ => true)) =
      Ret I2C_NACK_ADDR w' /\
    i2c_msg.xferred (itc_msg w') = 0.
Proof.
  destruct (process_nack_on_address bench_read 1
              (three_staged (prompt 10) (fun _ => true)) []
              eq_refl eq_refl) as (w' & Hrun & _ & _ & Hx & _).
  exists w'. split; assumption.
Defined.

Lemma nack_at_2_acks : acks (nack_at 2) 0 2.
Proof. intros [|[|j]] Hj; [reflexivity | reflexivity | lia]. Defined.

Lemma process_nack_on_data_witness :
  exists w',
    process bench_read 1 (three_staged (prompt 28) (nack_at 2)) =
      Ret I2C_NACK_DATA w' /\
    i2c_msg.xferred (itc_msg w') = 1.
Proof.
  destruct (process_nack_on_data bench_read 1
              (three_staged (prompt 28) (nack_at 2)) [] 1 2)
    as (w' & Hrun & Hx & _).
  - vm_compute. discriminate.
  - vm_compute. split; [discriminate | reflexivity].
  - lia.
  - vm_compute. discriminate.
  - reflexivity.
  - exact nack_at_2_acks.
  - reflexivity.
  - reflexivity.
  - exists w'. split; assumption.
Defined.



Lemma write_at_capacity_overflows_witness :
  exists w',
    write bench_size 0xAA (full_tx [] (fun _ => false)) = Ret tt w' /\
    tx_buf_overflow w' = true /\
    endTransmission bench_read w' = Ret I2C_DATA_TOO_LONG w'.
Proof.
  destruct (write_at_capacity_overflows bench_size bench_read 0xAA
              (full_tx [] (fun _ => false)) eq_refl)
    as (Hw & Hovf & _ & _ & _ & _ & Hend).
  eexists. split; [exact Hw|]. split; [exact Hovf|].
  apply Hend. exact Hovf.
Defined.



(** * Concrete runs of the further properties *)

Lemma staged_bytes_round_trip_witness :
  exists w',
    (beginTransmission 0x50 ;; write_buf bench_size [1; 2; 3] 3)
      (bench [] (fun _ => false)) = Ret tt w' /\
    staged (i2c_msg.data (itc_msg w')) (i2c_msg.length (itc_msg w')) w' =
      [1; 2; 3].
Proof.
  pose proof (staged_bytes_round_trip bench_size 0x50 [1; 2; 3]
                (bench [] (fun _ => false))) as H.
  cbv zeta in H.
  destruct H as (w' & Hrun & _ & _ & _ & _ & Hst & _).
  - vm_compute. discriminate.
  - vm_compute. discriminate.
  - vm_compute. discriminate.
  - reflexivity.
  - exists w'. split; [exact Hrun | exact Hst].
Defined.

Lemma write_buf_keeps_what_fits_witness :
  exists w',
    write_buf bench_size (repeat 0xAA 33) 33 (bench [] (fun _ => false)) =
      Ret tt w' /\
    tx_buf_overflow w' = true /\
    tx_buf_idx w' = 32 /\
    i2c_msg.length (itc_msg w') = 32.
Proof.
  pose proof (write_buf_keeps_what_fits bench_size (repeat 0xAA 33)
                (bench [] (fun _ => false))) as H.
  cbv zeta in H.
  destruct H as (w' & Hrun & Hovf & Hidx & Hlen & _).
  - vm_compute. split; discriminate.
  - vm_compute. split; [reflexivity | discriminate].
  - vm_compute. discriminate.
  - reflexivity.
  - vm_compute. discriminate.
  - reflexivity.
  - exists w'. exact (conj Hrun (conj Hovf (conj Hidx Hlen))).
Defined.

Lemma write_str_stops_at_nul_witness :
  exists w',
    write_str bench_size [104; 105; 0; 33] (bench [] (fun _ => false)) =
      Ret tt w' /\
    staged (mkPtr TX 0) 2 w' = [104; 105] /\
    tx_buf_idx w' = 2.
Proof.
  pose proof (write_str_stops_at_nul bench_size [104; 105] [33]
                (bench [] (fun _ => false))) as H.
  cbv zeta in H.
  destruct H as (w' & Hrun & Hst & Hidx & _).
  - repeat constructor; lia.
  - vm_compute. discriminate.
  - vm_compute. discriminate.
  - vm_compute. discriminate.
  - reflexivity.
  - vm_compute. discriminate.
  - reflexivity.
  - exists w'. exact (conj Hrun (conj Hst Hidx)).
Defined.

Lemma overflow_outlives_transaction_witness :
  exists st w',
    (beginTransmission 0x50 ;;
     write_buf bench_size [1] 1 ;;
     endTransmission bench_read) (overflowed [] (fun _ => false)) =
      Ret st w' /\
    st = I2C_DATA_TOO_LONG /\ tx_buf_overflow w' = true.
Proof.
  destruct ((beginTransmission 0x50 ;;
             write_buf bench_size [1] 1 ;;
             endTransmission bench_read) (overflowed [] (fun _ => false)))
    as [st w'| |] eqn:Hrun;
    [| vm_compute in Hrun; discriminate ..].
  destruct (overflow_outlives_transaction bench_size bench_read 0x50 [1] 1
              (overflowed [] (fun _ => false)) st w' eq_refl Hrun)
    as (Hst & Hovf & _).
  exists st, w'. exact (conj eq_refl (conj Hst Hovf)).
Defined.

Lemma always_acks n : acks (fun _ => false) 0 n.
Proof. intros j _. reflexivity. Defined.

Lemma write_transaction_goes_through_witness :
  exists w',
    (beginTransmission 0x50 ;;
     write_buf bench_size [1; 2; 3] 3 ;;
     endTransmission bench_read) (bench (prompt 37) (fun _ => false)) =
      Ret I2C_OK w' /\
    ops (bus w') =
      [OpStart; OpShiftOut 0xA0; OpGetAck true;
       OpShiftOut 1; OpGetAck true; OpShiftOut 2; OpGetAck true;
       OpShiftOut 3; OpGetAck true; OpStop].
Proof.
  pose proof (write_transaction_goes_through bench_size bench_read 0x50
                [1; 2; 3] (bench (prompt 37) (fun _ => false)) []) as H.
  cbv zeta in H.
  destruct H as (w' & Hrun & Hops & _).
  - discriminate.
  - lia.
  - reflexivity.
  - vm_compute. discriminate.
  - vm_compute. discriminate.
  - vm_compute. discriminate.
  - reflexivity.
  - exact (always_acks 4).
  - reflexivity.
  - exists w'. split; [exact Hrun | exact Hops].
Defined.

Lemma endTransmission_absent_device_witness :
  exists w',
    endTransmission bench_read (bench (prompt 10) (fun _ => true)) =
      Ret I2C_NACK_ADDR w' /\
    tx_buf_idx w' = 0 /\
    scl_out (bus w') = true /\ sda_out (bus w') = true.
Proof.
  destruct (endTransmission_absent_device bench_read
              (bench (prompt 10) (fun _ => true)) []
              eq_refl eq_refl eq_refl)
    as (w' & Hrun & Hidx & _ & _ & _ & Hscl & Hsda & _).
  exists w'. exact (conj Hrun (conj Hidx (conj Hscl Hsda))).
Defined.

Lemma requestFrom_then_read_witness :
  exists w' w'',
    requestFrom bench_size bench_read 0x50 3
      (bench (prompt 37) (fun n => Nat.odd n)) = Ret 3 w' /\
    reads 3 w' = Ret [0xAA; 0xAA; 0xAA] w'' /\
    available w'' = 0.
Proof.
  pose proof (requestFrom_then_read bench_size bench_read 0x50 3
                (bench (prompt 37) (fun n => Nat.odd n)) []) as H.
  cbv zeta in H.
  destruct H as (w' & w'' & Hrun & _ & Hreads & _ & Hav & _).
  - lia.
  - reflexivity.
  - reflexivity.
  - lia.
  - vm_compute. split; reflexivity.
  - vm_compute. discriminate.
  - reflexivity.
  - reflexivity.
  - exists w', w''. exact (conj Hrun (conj Hreads Hav)).
Defined.

Lemma requestFrom_absent_device_witness :
  exists w',
    requestFrom bench_size bench_read 0x50 3
      (bench (prompt 10) (fun _ => true)) = Ret 0 w' /\
    rx_buf_len w' = 0 /\
    scl_out (bus w') = true /\ sda_out (bus w') = true.
Proof.
  destruct (requestFrom_absent_device bench_size bench_read 0x50 3
              (bench (prompt 10) (fun _ => true)) [])
    as (w' & Hrun & Hlen & _ & _ & _ & _ & _ & Hscl & Hsda & _).
  - vm_compute. split; [discriminate | reflexivity].
  - reflexivity.
  - reflexivity.
  - exists w'. exact (conj Hrun (conj Hlen (conj Hscl Hsda))).
Defined.

Lemma shift_out_msb_first_witness :
  exists b',
    i2c_shift_out 0xA5 (bench_bus (prompt 8) (fun _ => false)) =
      Ret tt b' /\
    sda_levels (flat_map (bit_wave SOFT_STANDARD) (byte_bits 0xA5)) =
      [true; false; true; false; false; true; false; true] /\
    scl_out b' = false.
Proof.
  destruct (shift_out_msb_first 0xA5
              (bench_bus (prompt 8) (fun _ => false)) [] eq_refl)
    as (b' & Hrun & _ & Hlevels & _ & Hscl & _).
  exists b'. exact (conj Hrun (conj Hlevels Hscl)).
Defined.

Lemma shift_in_reads_what_shift_out_writes_witness :
  exists b',
    i2c_shift_in (sending 0xA5 (prompt 8)) = Ret 0xA5 b' /\
    sda_samples b' = 8%nat.
Proof.
  destruct (shift_in_reads_what_shift_out_writes 0xA5
              (sending 0xA5 (prompt 8)) [] eq_refl eq_refl)
    as (b' & Hrun & _ & Hs & _).
  exists b'. split; [exact Hrun | exact Hs].
Defined.

Lemma process_run_grammar_witness :
  exists st w',
    process bench_read 1 (three_staged (prompt 37) (nack_at 2)) =
      Ret st w' /\
    st <> I2C_DATA_TOO_LONG /\
    tx_buf_idx w' = 3.
Proof.
  destruct (process bench_read 1 (three_staged (prompt 37) (nack_at 2)))
    as [st w'| |] eqn:Hrun;
    [| vm_compute in Hrun; discriminate ..].
  pose proof (process_run_grammar bench_read 1
                (three_staged (prompt 37) (nack_at 2)) st w' Hrun) as H.
  cbv zeta in H.
  destruct H as (bytes & o & _ & _ & _ & _ & Hst & _ & _ & _ & Hidx & _).
  exists st, w'. exact (conj eq_refl (conj Hst Hidx)).
Defined.

Lemma process_is_paced_witness :
  exists st w' l,
    process bench_read 1 (three_requested (prompt 40) (fun _ => false)) =
      Ret st w' /\
    wave (bus w') = l /\
    paced SOFT_STANDARD l = true.
Proof.
  destruct (process bench_read 1
              (three_requested (prompt 40) (fun _ => false)))
    as [st w'| |] eqn:Hrun;
    [| vm_compute in Hrun; discriminate ..].
  destruct (process_is_paced bench_read 1
              (three_requested (prompt 40) (fun _ => false)) st w' Hrun)
    as (l & Hwave & Hpaced).
  exists st, w', l. exact (conj eq_refl (conj Hwave Hpaced)).
Defined.

Lemma process_moves_data_while_clock_low_witness :
  exists st w' l,
    process bench_read 1 (three_staged (prompt 40) (fun _ => false)) =
      Ret st w' /\
    moves_while_high true true l = [false; true].
Proof.
  destruct (process bench_read 1
              (three_staged (prompt 40) (fun _ => false)))
    as [st w'| |] eqn:Hrun;
    [| vm_compute in Hrun; discriminate ..].
  destruct (process_moves_data_while_clock_low bench_read 1
              (three_staged (prompt 40) (fun _ => false)) st w'
              eq_refl Hrun)
    as (l & closing & _ & Hmoves & [[-> _]|(_ & _ & _ & Hstop)]).
  - exists st, w', l. split; [reflexivity | exact Hmoves].
  - exfalso. apply Hstop. reflexivity.
Defined.

Lemma process_returns_witness :
  exists st w',
    process bench_read 1 (three_staged (prompt 37) (nack_at 2)) = Ret st w'.
Proof.
  apply (process_returns bench_read 1
           (three_staged (prompt 37) (nack_at 2)) []).
  - vm_compute. split; [discriminate | reflexivity].
  - intros _. vm_compute. discriminate.
  - vm_compute. split; discriminate.
  - reflexivity.
Defined.

Lemma setClock_paces_the_next_run_witness :
  exists st w',
    (setClock 1000000 ;; process bench_read 1)
      (three_staged (prompt 40) (fun _ => false)) = Ret st w' /\
    i2c_delay (bus w') = SOFT_STANDARD.
Proof.
  destruct ((setClock 1000000 ;; process bench_read 1)
              (three_staged (prompt 40) (fun _ => false)))
    as [st w'| |] eqn:Hrun;
    [| vm_compute in Hrun; discriminate ..].
  destruct (setClock_paces_the_next_run bench_read 1000000 1
              (three_staged (prompt 40) (fun _ => false)) st w' Hrun)
    as (Hdelay & _).
  exists st, w'. split; [reflexivity | exact Hdelay].
Defined.
